(** * not_a_timer: a cooperative run-until-told-to-stop loop

    Shallow embedding of [src/not_a_timer/not_a_timer.cpp].

    - The blocking entry point [run] is a function on an explicit world
      (the object's fields, the state captured by the step function, and a
      ghost count of step-function invocations).
    - The detached entry point [run_async], [stop], [is_running] and the
      destructor are transitions of a two-thread interleaving machine whose
      worker executes the same [run], one atomic access per step.
    - The atomics are sequentially consistent (the source uses the default
      memory order of [std::atomic<bool>]).
    - The step function is taken to stay valid for as long as the loop
      uses it, and to return or throw whenever it is invoked.
    - In the two-thread machine the step function works on what it
      captured only; a step function that calls [stop()] on its own runner
      is covered for the blocking loop ([run_may_stop]).
    - [std::async] is taken to succeed in creating its thread. *)

From Stdlib Require Import Bool List Arith ZArith Lia.
Import ListNotations.

Set Implicit Arguments.

(** ** Data *)

(** What one invocation of a [std::function<bool()>] yields: a boolean, or
    an exception leaving the call. *)
Inductive result : Type :=
| Ret (b : bool)
| Throw.

(** How a call leaves its body: by returning, or by an exception that
    propagates to the caller. *)
Inductive exit_kind : Type :=
| Normal
| Exceptional.

(** The two threads of interest: the one that owns the object and calls its
    public functions, and the one launched by [std::async]. *)
Inductive tid : Type :=
| Caller
| Worker.

Definition tid_eqb (a b : tid) : bool :=
  match a, b with
  | Caller, Caller | Worker, Worker => true
  | _, _ => false
  end.

(** Shared state of a [std::future<void>] obtained from [std::async]. *)
Record future : Type := mkFuture {
  ready : bool;
  stored_exception : bool
}.

(** The fields of [class not_a_timer], in declaration order.  The condition
    variable is the list of threads blocked in [wait]; the mutex is its
    owner, if any. *)
Record not_a_timer : Type := mkTimer {
  _running_fn : option future;
  _async_run_started : list tid;
  _mutex : option tid;
  _keep_running : bool;
  _is_running : bool
}.

(** [not_a_timer() = default] with the member initialisers of the class. *)
Definition default_constructed : not_a_timer :=
  {| _running_fn := None;
     _async_run_started := [];
     _mutex := None;
     _keep_running := true;
     _is_running := false |}.

Definition set_running_fn (f : option future) (t : not_a_timer) : not_a_timer :=
  {| _running_fn := f;
     _async_run_started := _async_run_started t;
     _mutex := _mutex t;
     _keep_running := _keep_running t;
     _is_running := _is_running t |}.

Definition set_async_run_started (l : list tid) (t : not_a_timer) : not_a_timer :=
  {| _running_fn := _running_fn t;
     _async_run_started := l;
     _mutex := _mutex t;
     _keep_running := _keep_running t;
     _is_running := _is_running t |}.

Definition set_mutex (m : option tid) (t : not_a_timer) : not_a_timer :=
  {| _running_fn := _running_fn t;
     _async_run_started := _async_run_started t;
     _mutex := m;
     _keep_running := _keep_running t;
     _is_running := _is_running t |}.

Definition set_keep_running (b : bool) (t : not_a_timer) : not_a_timer :=
  {| _running_fn := _running_fn t;
     _async_run_started := _async_run_started t;
     _mutex := _mutex t;
     _keep_running := b;
     _is_running := _is_running t |}.

Definition set_is_running (b : bool) (t : not_a_timer) : not_a_timer :=
  {| _running_fn := _running_fn t;
     _async_run_started := _async_run_started t;
     _mutex := _mutex t;
     _keep_running := _keep_running t;
     _is_running := b |}.

(** [void stop() { _keep_running = false; }] *)
Definition stop (t : not_a_timer) : not_a_timer :=
  set_keep_running false t.

(** [bool is_running() const { return _is_running; }] *)
Definition is_running (t : not_a_timer) : bool :=
  _is_running t.

(** ** The blocking loop *)

Section Loop.

(** State captured by the step function (the tests capture a counter by
    reference). *)
Variable Env : Type.

(** The step function: it may update what it captured, and returns a
    boolean or throws. *)
Variable fn : Env -> Env * result.

(** The object, the captured state, and the number of times the step
    function has been invoked so far (ghost). *)
Record World : Type := mkWorld {
  timer : not_a_timer;
  env : Env;
  calls : nat
}.

Definition with_timer (f : not_a_timer -> not_a_timer) (w : World) : World :=
  {| timer := f (timer w); env := env w; calls := calls w |}.

(** One evaluation of [fn()]. *)
Definition invoke (w : World) : World * result :=
  let (e, r) := fn (env w) in
  ({| timer := timer w; env := e; calls := S (calls w) |}, r).

(** [while (_keep_running && fn());] on one thread, nothing else running.
    [None]: the fuel did not suffice. *)
Fixpoint while_loop (fuel : nat) (w : World) : option (exit_kind * World) :=
  match fuel with
  | O => None
  | S fuel' =>
      if _keep_running (timer w) then
        match invoke w with
        | (w', Ret true) => while_loop fuel' w'
        | (w', Ret false) => Some (Normal, w')
        | (w', Throw) => Some (Exceptional, w')
        end
      else Some (Normal, w)
  end.

(** [struct janitor]: the stored function runs when the scope is left,
    whichever way it is left. *)
Definition janitor (_fn : World -> World)
    (body : World -> option (exit_kind * World)) (w : World)
  : option (exit_kind * World) :=
  match body w with
  | Some (k, w') => Some (k, _fn w')
  | None => None
  end.

(** [void run(Fn_t&& fn)] *)
Definition run (fuel : nat) (w : World) : option (exit_kind * World) :=
  let w1 := with_timer (set_keep_running true) w in
  let w2 := with_timer (set_is_running true) w1 in
  janitor (with_timer (set_is_running false)) (while_loop fuel) w2.

(** The captured state after [n] invocations in a row. *)
Fixpoint env_after (n : nat) (e : Env) : Env :=
  match n with
  | O => e
  | S n' => env_after n' (fst (fn e))
  end.

(** The step function returns true on its next [n - 1] invocations and
    false on the [n]-th one. *)
Fixpoint true_then_false (n : nat) (e : Env) : bool :=
  match n with
  | O => false
  | S n' =>
      match snd (fn e), n' with
      | Ret false, O => true
      | Ret true, S _ => true_then_false n' (fst (fn e))
      | _, _ => false
      end
  end.

End Loop.

(** The step function of the tests: [[&count]() { return --count > 0; }]
    with [size_t count], 64 bits wide. *)
Definition countdown (count : Z) : Z * result :=
  let count' := ((count - 1) mod 2 ^ 64)%Z in
  (count', Ret (0 <? count')%Z).

(** ** The detached loop: two threads, one atomic access per step *)

(** Program points of [run] on the thread that executes it. *)
Inductive run_pc : Type :=
| R_set_keep                  (* before [_keep_running = true] *)
| R_set_is                    (* before [_is_running = true] *)
| R_check                     (* before the load of [_keep_running] *)
| R_call                      (* the load gave true: before [fn()] *)
| R_cleanup (k : exit_kind)   (* loop left: before [~janitor] *)
| R_exit (k : exit_kind).     (* [run] has returned or propagated *)

(** Calls made by the owning thread, in program order. *)
Inductive cmd : Type :=
| RunAsync
| Stop
| IsRunning
| Destroy.

(** Program points of the owning thread. *)
Inductive caller_pc : Type :=
| C_idle        (* between two calls *)
| A_launch      (* in [run_async], mutex held: before [_running_fn = std::async(...)] *)
| A_wait        (* before [_async_run_started.wait(lock)] *)
| A_blocked     (* inside [wait]: mutex released, blocked *)
| A_unlock      (* [wait] has returned, mutex held: before [run_async] returns *)
| D_wait        (* in the destructor: inside [_running_fn->wait()] *)
| C_destroyed.  (* the destructor has returned *)

(** Program points of the thread launched by [std::async]. *)
Inductive worker_pc : Type :=
| W_idle                (* no thread launched yet *)
| W_lock                (* in [_notify_async_run_started]: before the lock *)
| W_notify              (* mutex held: before [notify_all] *)
| W_unlock              (* before the lock is released *)
| W_run (pc : run_pc)   (* in [run(std::move(fn))] *)
| W_done.               (* the lambda has finished, the future is ready *)

(** Who moves next: a thread, or the condition variable waking its waiter
    without a notification. *)
Inductive label : Type :=
| L_caller
| L_worker
| L_spurious.

Section Machine.

Variable Env : Type.
Variable fn : Env -> Env * result.

(** Whether [wait] may return without a notification, as the C++ standard
    allows it to. *)
Variable spurious : bool.

(** One step of [run]. *)
Definition run_step (pc : run_pc) (w : World Env) : run_pc * World Env :=
  match pc with
  | R_set_keep => (R_set_is, with_timer (set_keep_running true) w)
  | R_set_is => (R_check, with_timer (set_is_running true) w)
  | R_check =>
      if _keep_running (timer w) then (R_call, w) else (R_cleanup Normal, w)
  | R_call =>
      match invoke fn w with
      | (w', Ret true) => (R_check, w')
      | (w', Ret false) => (R_cleanup Normal, w')
      | (w', Throw) => (R_cleanup Exceptional, w')
      end
  | R_cleanup k => (R_exit k, with_timer (set_is_running false) w)
  | R_exit k => (R_exit k, w)
  end.

Fixpoint run_steps (n : nat) (pc : run_pc) (w : World Env) : run_pc * World Env :=
  match n with
  | O => (pc, w)
  | S n' => let (pc', w') := run_step pc w in run_steps n' pc' w'
  end.

Record State : Type := mkState {
  world : World Env;
  caller : caller_pc;
  prog : list cmd;          (* calls the owning thread has still to make *)
  obs : list bool;          (* results of [is_running()], latest first *)
  worker : worker_pc
}.

Definition init (e : Env) (p : list cmd) : State :=
  {| world := {| timer := default_constructed; env := e; calls := 0 |};
     caller := C_idle;
     prog := p;
     obs := [];
     worker := W_idle |}.

Definition with_world (f : World Env -> World Env) (s : State) : State :=
  {| world := f (world s); caller := caller s; prog := prog s;
     obs := obs s; worker := worker s |}.

Definition goto_caller (pc : caller_pc) (s : State) : State :=
  {| world := world s; caller := pc; prog := prog s;
     obs := obs s; worker := worker s |}.

Definition goto_worker (pc : worker_pc) (s : State) : State :=
  {| world := world s; caller := caller s; prog := prog s;
     obs := obs s; worker := pc |}.

Definition with_prog (p : list cmd) (s : State) : State :=
  {| world := world s; caller := caller s; prog := p;
     obs := obs s; worker := worker s |}.

Definition observe (b : bool) (s : State) : State :=
  {| world := world s; caller := caller s; prog := prog s;
     obs := b :: obs s; worker := worker s |}.

Definition mutex_free (s : State) : bool :=
  match _mutex (timer (world s)) with
  | None => true
  | Some _ => false
  end.

Definition is_waiting (t : tid) (s : State) : bool :=
  existsb (tid_eqb t) (_async_run_started (timer (world s))).

Definition worker_finished (s : State) : bool :=
  match worker s with
  | W_idle | W_done => true
  | _ => false
  end.

Definition future_ready (s : State) : bool :=
  match _running_fn (timer (world s)) with
  | Some f => ready f
  | None => false
  end.

(** [void run_async(Fn_t&& fn)] on the owning thread, one statement per
    step. *)
Definition run_async (s : State) : option State :=
  match caller s with
  | C_idle =>
      (* [std::unique_lock<std::mutex> lock(_mutex);] *)
      if mutex_free s
      then Some (goto_caller A_launch (with_world (with_timer (set_mutex (Some Caller))) s))
      else None
  | A_launch =>
      (* [_running_fn = std::async(std::launch::async, ...)].  A future left
         by an earlier [run_async] is released by the assignment, which
         blocks until that task has finished; the mutex is held meanwhile,
         so the new thread has not moved yet. *)
      if worker_finished s
      then Some (goto_caller A_wait (goto_worker W_lock
             (with_world (with_timer (set_running_fn (Some (mkFuture false false)))) s)))
      else None
  | A_wait =>
      (* [_async_run_started.wait(lock)]: release the mutex and block,
         atomically *)
      Some (goto_caller A_blocked
             (with_world (with_timer (fun t =>
                set_mutex None (set_async_run_started (Caller :: _async_run_started t) t))) s))
  | A_blocked =>
      (* woken: [wait] returns once the mutex is held again *)
      if negb (is_waiting Caller s) && mutex_free s
      then Some (goto_caller A_unlock (with_world (with_timer (set_mutex (Some Caller))) s))
      else None
  | A_unlock =>
      (* [~unique_lock]; [run_async] returns *)
      Some (goto_caller C_idle (with_world (with_timer (set_mutex None)) s))
  | _ => None
  end.

(** [~not_a_timer()]: [if (_running_fn) { _running_fn->wait(); }] *)
Definition destructor (s : State) : option State :=
  match caller s with
  | C_idle =>
      match _running_fn (timer (world s)) with
      | Some _ => Some (goto_caller D_wait s)
      | None => Some (goto_caller C_destroyed s)
      end
  | D_wait =>
      if future_ready s then Some (goto_caller C_destroyed s) else None
  | _ => None
  end.

(** The next call of the owning thread. *)
Definition caller_call (c : cmd) (s : State) : option State :=
  match c with
  | RunAsync => run_async s
  | Stop => Some (with_world (with_timer stop) s)
  | IsRunning => Some (observe (is_running (timer (world s))) s)
  | Destroy => destructor s
  end.

Definition caller_step (s : State) : option State :=
  match caller s with
  | C_idle =>
      match prog s with
      | c :: p => caller_call c (with_prog p s)
      | [] => None
      end
  | A_launch | A_wait | A_blocked | A_unlock => run_async s
  | D_wait => destructor s
  | C_destroyed => None
  end.

(** [void _notify_async_run_started()] on the worker, one statement per
    step. *)
Definition _notify_async_run_started (s : State) : option State :=
  match worker s with
  | W_lock =>
      (* [std::unique_lock<std::mutex> lock{ _mutex };] *)
      if mutex_free s
      then Some (goto_worker W_notify (with_world (with_timer (set_mutex (Some Worker))) s))
      else None
  | W_notify =>
      (* [_async_run_started.notify_all();] *)
      Some (goto_worker W_unlock (with_world (with_timer (set_async_run_started [])) s))
  | W_unlock =>
      (* [~unique_lock]; the call returns *)
      Some (goto_worker (W_run R_set_keep) (with_world (with_timer (set_mutex None)) s))
  | _ => None
  end.

(** The lambda handed to [std::async]:
    [_notify_async_run_started(); run(std::move(fn));] *)
Definition worker_step (s : State) : option State :=
  match worker s with
  | W_idle => None
  | W_lock | W_notify | W_unlock => _notify_async_run_started s
  | W_run (R_exit k) =>
      (* the lambda returns or throws: the shared state becomes ready *)
      let stored := match k with Normal => false | Exceptional => true end in
      Some (goto_worker W_done
             (with_world (with_timer (set_running_fn (Some (mkFuture true stored)))) s))
  | W_run pc =>
      let (pc', w') := run_step pc (world s) in
      Some (goto_worker (W_run pc') (with_world (fun _ => w') s))
  | W_done => None
  end.

(** [wait] returning without a notification. *)
Definition spurious_step (s : State) : option State :=
  if spurious && is_waiting Caller s
  then Some (with_world (with_timer (fun t =>
         set_async_run_started
           (filter (fun x => negb (tid_eqb Caller x)) (_async_run_started t)) t)) s)
  else None.

Definition step (l : label) (s : State) : option State :=
  match l with
  | L_caller => caller_step s
  | L_worker => worker_step s
  | L_spurious => spurious_step s
  end.

(** Run a schedule; [None] when it asks a blocked thread to move. *)
Fixpoint exec (sched : list label) (s : State) : option State :=
  match sched with
  | [] => Some s
  | l :: sched' =>
      match step l s with
      | Some s' => exec sched' s'
      | None => None
      end
  end.

(** The state a schedule leads to (the starting one if it cannot run). *)
Definition state_after (sched : list label) (s : State) : State :=
  match exec sched s with
  | Some s' => s'
  | None => s
  end.

Definition reachable (e : Env) (p : list cmd) (s : State) : Prop :=
  exists sched, exec sched (init e p) = Some s.

End Machine.

(** ** State predicates used by the invariants *)

Definition caller_holds (pc : caller_pc) : bool :=
  match pc with
  | A_launch | A_wait | A_unlock => true
  | _ => false
  end.

Definition worker_holds (pc : worker_pc) : bool :=
  match pc with
  | W_notify | W_unlock => true
  | _ => false
  end.

(** The worker is between the write [_is_running = true] and the janitor's
    write [_is_running = false]. *)
Definition in_loop (pc : worker_pc) : bool :=
  match pc with
  | W_run (R_check | R_call | R_cleanup _) => true
  | _ => false
  end.

(** The worker has left [_notify_async_run_started]'s [notify_all] behind. *)
Definition notified (pc : worker_pc) : bool :=
  match pc with
  | W_idle | W_lock | W_notify => false
  | _ => true
  end.

(** [run] on the worker has left its loop. *)
Definition loop_left (pc : worker_pc) : bool :=
  match pc with
  | W_run (R_cleanup _ | R_exit _) | W_done => true
  | _ => false
  end.

Definition cmd_eqb (a b : cmd) : bool :=
  match a, b with
  | RunAsync, RunAsync | Stop, Stop | IsRunning, IsRunning | Destroy, Destroy => true
  | _, _ => false
  end.

Definition mentions (c : cmd) (p : list cmd) : bool := existsb (cmd_eqb c) p.

Section Invariants.

Variable Env : Type.

(** Who owns what, in every state the machine can reach. *)
Record wf (s : State Env) : Prop := mkWf {
  wf_mutex :
    _mutex (timer (world s))
    = if caller_holds (caller s) then Some Caller
      else if worker_holds (worker s) then Some Worker
      else None;
  wf_excl : caller_holds (caller s) && worker_holds (worker s) = false;
  wf_waiters :
    _async_run_started (timer (world s)) = []
    \/ (_async_run_started (timer (world s)) = [Caller] /\ caller s = A_blocked);
  wf_future :
    match _running_fn (timer (world s)) with
    | None => worker s = W_idle
    | Some f =>
        worker s <> W_idle
        /\ ready f = match worker s with W_done => true | _ => false end
    end;
  wf_live : _is_running (timer (world s)) = in_loop (worker s);
  wf_launched :
    match caller s with
    | A_wait | A_blocked | A_unlock | D_wait => worker s <> W_idle
    | _ => True
    end;
  wf_destroyed : caller s = C_destroyed -> worker_finished s = true
}.

(** While the worker has not notified yet, the caller is inside its
    [wait] (or about to enter it). *)
Definition handshake (s : State Env) : Prop :=
  notified (worker s) = false ->
  worker s = W_idle
  \/ caller s = A_wait
  \/ (caller s = A_blocked /\ is_waiting Caller s = true).

(** The caller is still inside the handshake of [run_async]. *)
Definition awaiting_start (s : State Env) : bool :=
  match caller s with
  | A_wait => true
  | A_blocked => is_waiting Caller s
  | _ => false
  end.

(** Nobody will call [stop()] any more, so [_keep_running] stays true
    once [run] has set it; [c0] bounds the invocation count from below,
    strictly once a loop has been left. *)
Definition unstopped (c0 : nat) (s : State Env) : Prop :=
  mentions Stop (prog s) = false
  /\ c0 <= calls (world s)
  /\ match worker s with
     | W_run R_set_keep => True
     | W_run (R_set_is | R_check | R_call) =>
         _keep_running (timer (world s)) = true
     | _ => c0 < calls (world s)
     end.

(** No later [run_async] will set [_keep_running] back to true. *)
Definition no_launch (s : State Env) : Prop :=
  mentions RunAsync (prog s) = false /\ caller s <> A_launch.

(** The stop flag is down for good and [run] is past its reset of the
    flag; at most the invocation already decided on is still to come. *)
Definition stopping (c : nat) (s : State Env) : Prop :=
  _keep_running (timer (world s)) = false
  /\ no_launch s
  /\ match worker s with
     | W_run R_call => S (calls (world s)) <= c
     | W_run (R_set_is | R_check | R_cleanup _ | R_exit _) | W_done =>
         calls (world s) <= c
     | _ => False
     end.

(** The worker is where [_keep_running] matters: set by [run], not yet
    read for the last time. *)
Definition flag_live (pc : worker_pc) : bool :=
  match pc with
  | W_run (R_set_is | R_check | R_call) => true
  | _ => false
  end.

(** Two states that agree on everything but, possibly, [_keep_running],
    which they may disagree on only while it does not matter. *)
Definition same_but_keep_running (s1 s2 : State Env) : Prop :=
  caller s1 = caller s2 /\ prog s1 = prog s2 /\ obs s1 = obs s2
  /\ worker s1 = worker s2
  /\ env (world s1) = env (world s2)
  /\ calls (world s1) = calls (world s2)
  /\ set_keep_running true (timer (world s1))
     = set_keep_running true (timer (world s2))
  /\ (flag_live (worker s1) = true ->
      _keep_running (timer (world s1)) = _keep_running (timer (world s2))).

(** With no [stop()] to come, the loop is left only in a state the step
    function ended in. *)
Definition drained (terminal : Env -> Prop) (s : State Env) : Prop :=
  mentions Stop (prog s) = false
  /\ match worker s with
     | W_run (R_set_is | R_check | R_call) =>
         _keep_running (timer (world s)) = true
     | W_run (R_cleanup _ | R_exit _) | W_done => terminal (env (world s))
     | _ => True
     end.

End Invariants.

(** ** Further predicates: the handshake order *)

Section MoreInvariants.

Variable Env : Type.
Variable fn : Env -> Env * result.

(** The worker exists and has not yet executed [_keep_running = true]. *)
Definition pre_reset (pc : worker_pc) : bool :=
  match pc with
  | W_lock | W_notify | W_unlock | W_run R_set_keep => true
  | _ => false
  end.

(** Where the worker stands while the owning thread is inside [wait]. *)
Definition handshake_order (s : State Env) : Prop :=
  match caller s with
  | A_wait => worker s = W_lock
  | A_blocked =>
      is_waiting Caller s = true -> worker s = W_lock \/ worker s = W_notify
  | _ => True
  end.

(** The owning thread is inside [run_async], past the launch. *)
Definition in_handshake (pc : caller_pc) : bool :=
  match pc with
  | A_wait | A_blocked | A_unlock => true
  | _ => false
  end.

End MoreInvariants.

(** ** The window between the reset and the first check *)

Section Window.

Variable Env : Type.
Variable fn : Env -> Env * result.
Variable spurious : bool.

(** The next step of the owning thread is a call of [stop()]. *)
Definition stop_is_next (s : State Env) : bool :=
  match caller s, prog s with
  | C_idle, Stop :: _ => true
  | _, _ => false
  end.

(** [run] on the worker has reset [_keep_running] and has not yet made
    its first check: the worker stands before [_is_running = true] or before
    the check, and the invocation count is still [c0], the one at the entry
    of this [run]. *)
Definition before_first_check (c0 : nat) (s : State Env) : bool :=
  match worker s with
  | W_run (R_set_is | R_check) => Nat.eqb (calls (world s)) c0
  | _ => false
  end.

(** Whether, along a schedule, some [stop()] of the owning thread is
    executed in a state where the worker is between the reset and the
    first check. *)
Fixpoint stop_in_window (c0 : nat) (sched : list label) (s : State Env) : bool :=
  match sched with
  | [] => false
  | l :: sched' =>
      match step fn spurious l s with
      | Some s' =>
          (match l with
           | L_caller => stop_is_next s && before_first_check c0 s
           | _ => false
           end)
          || stop_in_window c0 sched' s'
      | None => false
      end
  end.

(** What holds from the entry of a [run] on as long as no [stop()] has
    landed in the window: before the first check the flag is up, and once
    the loop has been left there has been an invocation. *)
Definition first_check_passes (c0 : nat) (s : State Env) : Prop :=
  c0 <= calls (world s)
  /\ match worker s with
     | W_run R_set_keep | W_run R_call => True
     | W_run (R_set_is | R_check) =>
         calls (world s) = c0 -> _keep_running (timer (world s)) = true
     | _ => c0 < calls (world s)
     end.

(** The first check has read true: an invocation is due or done. *)
Definition invocation_due (c0 : nat) (s : State Env) : Prop :=
  c0 <= calls (world s)
  /\ (worker s = W_run R_call \/ c0 < calls (world s)).

End Window.

(** ** Step functions that may call [stop()] on their own runner *)

Section SelfStop.

Variable Env : Type.

(** A step function that captured its runner: besides updating what it
    captured and returning or throwing, an invocation may have called
    [stop()] (the boolean).  The other member functions are out of its
    reach: [is_running()] changes nothing, and starting a loop or
    destroying the runner from inside a loop is outside the contract. *)
Variable sfn : Env -> Env * result * bool.

(** What the step function does to its captured state and returns. *)
Definition base (e : Env) : Env * result := fst (sfn e).

(** Whether the invocation calls [stop()]. *)
Definition calls_stop (e : Env) : bool := snd (sfn e).

(** One evaluation of [fn()] for such a step function. *)
Definition invoke_may_stop (w : World Env) : World Env * result :=
  let '(e, r, stopped) := sfn (env w) in
  ({| timer := if stopped then stop (timer w) else timer w;
      env := e;
      calls := S (calls w) |}, r).

(** [while (_keep_running && fn());] for such a step function. *)
Fixpoint while_loop_may_stop (fuel : nat) (w : World Env)
  : option (exit_kind * World Env) :=
  match fuel with
  | O => None
  | S fuel' =>
      if _keep_running (timer w) then
        match invoke_may_stop w with
        | (w', Ret true) => while_loop_may_stop fuel' w'
        | (w', Ret false) => Some (Normal, w')
        | (w', Throw) => Some (Exceptional, w')
        end
      else Some (Normal, w)
  end.

(** [void run(Fn_t&& fn)] for such a step function. *)
Definition run_may_stop (fuel : nat) (w : World Env) : option (exit_kind * World Env) :=
  let w1 := with_timer (set_keep_running true) w in
  let w2 := with_timer (set_is_running true) w1 in
  janitor (with_timer (set_is_running false)) (while_loop_may_stop fuel) w2.




End SelfStop.

(** * Properties of the blocking loop *)

Section LoopFacts.

Variable Env : Type.
Variable fn : Env -> Env * result.

Lemma invoke_calls (w : World Env) :
  calls (fst (invoke fn w)) = S (calls w).
Proof. unfold invoke. destruct (fn (env w)). reflexivity. Qed.

Lemma invoke_timer (w : World Env) :
  timer (fst (invoke fn w)) = timer w.
Proof. unfold invoke. destruct (fn (env w)). reflexivity. Qed.

(** The loop alone never writes the object. *)
Lemma while_loop_timer fuel : forall (w : World Env) k w',
  while_loop fn fuel w = Some (k, w') -> timer w' = timer w.
Proof.
  induction fuel as [|fuel IH]; intros w k w' H; simpl in H; [discriminate|].
  destruct (_keep_running (timer w)).
  - pose proof (invoke_timer w) as Ht.
    destruct (invoke fn w) as [w1 [[|]|]]; simpl in Ht.
    + rewrite (IH _ _ _ H). exact Ht.
    + injection H as _ <-. exact Ht.
    + injection H as _ <-. exact Ht.
  - injection H as _ <-. reflexivity.
Qed.

(** With the stop flag set to true and nobody to clear it, the loop leaves
    only after an invocation. *)
Lemma while_loop_calls fuel : forall (w : World Env) k w',
  _keep_running (timer w) = true ->
  while_loop fn fuel w = Some (k, w') -> calls w < calls w'.
Proof.
  induction fuel as [|fuel IH]; intros w k w' Hk H; simpl in H; [discriminate|].
  rewrite Hk in H.
  pose proof (invoke_calls w) as Hc. pose proof (invoke_timer w) as Ht.
  destruct (invoke fn w) as [w1 [[|]|]]; simpl in Hc, Ht.
  - assert (calls w1 < calls w') by (apply (IH _ k); [congruence|assumption]). lia.
  - injection H as _ <-. lia.
  - injection H as _ <-. lia.
Qed.

Lemma while_loop_true_then_false n : forall (w : World Env) fuel,
  _keep_running (timer w) = true ->
  true_then_false fn n (env w) = true ->
  n <= fuel ->
  while_loop fn fuel w
  = Some (Normal, {| timer := timer w;
                     env := env_after fn n (env w);
                     calls := calls w + n |}).
Proof.
  induction n as [|n IH]; intros w fuel Hk Hn Hf; simpl in Hn; [discriminate|].
  destruct fuel as [|fuel]; [lia|]. simpl. rewrite Hk.
  unfold invoke. destruct (fn (env w)) as [e r]; simpl in *.
  destruct r as [[|]|], n as [|n]; try discriminate.
  - rewrite IH; simpl; try assumption; try lia.
    do 3 f_equal. lia.
  - do 3 f_equal. lia.
Qed.

Lemma run_unfold fuel (w : World Env) :
  run fn fuel w
  = match while_loop fn fuel
            {| timer := set_is_running true (set_keep_running true (timer w));
               env := env w; calls := calls w |} with
    | Some (k, w') => Some (k, with_timer (set_is_running false) w')
    | None => None
    end.
Proof. reflexivity. Qed.

End LoopFacts.

Lemma countdown_range (c : Z) : (0 <= fst (countdown c) < 2 ^ 64)%Z.
Proof. unfold countdown; simpl. apply Z.mod_pos_bound. lia. Qed.

Lemma countdown_small (c : Z) :
  (1 <= c < 2 ^ 64)%Z -> countdown c = ((c - 1)%Z, Ret (0 <? c - 1)%Z).
Proof. intros Hc. unfold countdown. rewrite Z.mod_small by lia. reflexivity. Qed.

(** A counter that starts at [n >= 1] gives true [n - 1] times, then false,
    and is then zero. *)
Lemma countdown_true_then_false (n : nat) :
  0 < n -> (Z.of_nat n < 2 ^ 64)%Z ->
  true_then_false countdown n (Z.of_nat n) = true
  /\ env_after countdown n (Z.of_nat n) = 0%Z.
Proof.
  induction n as [|n IH]; [lia|]. intros _ Hb.
  cbn [true_then_false env_after].
  rewrite countdown_small by lia.
  replace (Z.of_nat (S n) - 1)%Z with (Z.of_nat n) by lia.
  cbn [fst snd].
  destruct n as [|n].
  - split; reflexivity.
  - replace (0 <? Z.of_nat (S n))%Z with true by (symmetry; apply Z.ltb_lt; lia).
    apply IH; lia.
Qed.

(** * The step-wise [run] agrees with the blocking one *)

Section Refinement.

Variable Env : Type.
Variable fn : Env -> Env * result.

Lemma run_steps_exit n k (w : World Env) :
  run_steps fn n (R_exit k) w = (R_exit k, w).
Proof. induction n as [|n IH]; simpl; auto. Qed.

Lemma run_steps_cleanup n k (w : World Env) :
  run_steps fn (S n) (R_cleanup k) w
  = (R_exit k, with_timer (set_is_running false) w).
Proof. simpl. apply run_steps_exit. Qed.

Lemma run_steps_app n m pc (w : World Env) :
  run_steps fn (n + m) pc w
  = let (pc', w') := run_steps fn n pc w in run_steps fn m pc' w'.
Proof.
  revert pc w. induction n as [|n IH]; intros pc w; simpl; [reflexivity|].
  destruct (run_step fn pc w) as [pc1 w1]. apply IH.
Qed.

Lemma while_loop_run_steps fuel : forall (w : World Env) k w',
  while_loop fn fuel w = Some (k, w') ->
  exists n, run_steps fn n R_check w = (R_cleanup k, w').
Proof.
  induction fuel as [|fuel IH]; intros w k w' H; simpl in H; [discriminate|].
  destruct (_keep_running (timer w)) eqn:Hk.
  - destruct (invoke fn w) as [w1 r] eqn:Hi.
    destruct r as [[|]|].
    + destruct (IH _ _ _ H) as [n Hn]. exists (S (S n)).
      simpl. rewrite Hk. simpl. rewrite Hi. exact Hn.
    + injection H as <- <-. exists 2. simpl. rewrite Hk. simpl. rewrite Hi. reflexivity.
    + injection H as <- <-. exists 2. simpl. rewrite Hk. simpl. rewrite Hi. reflexivity.
  - injection H as <- <-. exists 1. simpl. rewrite Hk. reflexivity.
Qed.

Lemma run_steps_while_loop n : forall (w : World Env) k w',
  run_steps fn n R_check w = (R_exit k, w') ->
  exists fuel w1,
    while_loop fn fuel w = Some (k, w1)
    /\ w' = with_timer (set_is_running false) w1.
Proof.
  induction n as [n IH] using lt_wf_ind. intros w k w' H.
  destruct n as [|n]; [discriminate|]. simpl in H.
  destruct (_keep_running (timer w)) eqn:Hk.
  - destruct n as [|n]; [discriminate|]. simpl in H.
    destruct (invoke fn w) as [w1 r] eqn:Hi.
    destruct r as [[|]|].
    + destruct (IH n ltac:(lia) _ _ _ H) as (fuel & w2 & Hw & ->).
      exists (S fuel), w2. split; [|reflexivity].
      simpl. rewrite Hk, Hi. exact Hw.
    + destruct n as [|n]; [discriminate|].
      rewrite run_steps_cleanup in H. injection H as <- <-.
      exists 1, w1. split; [|reflexivity]. simpl. rewrite Hk, Hi. reflexivity.
    + destruct n as [|n]; [discriminate|].
      rewrite run_steps_cleanup in H. injection H as <- <-.
      exists 1, w1. split; [|reflexivity]. simpl. rewrite Hk, Hi. reflexivity.
  - destruct n as [|n]; [discriminate|].
    rewrite run_steps_cleanup in H. injection H as <- <-.
    exists 1, w. split; [|reflexivity]. simpl. rewrite Hk. reflexivity.
Qed.

(** [run] returns a result exactly when its step-wise execution, left
    alone, reaches the matching exit. *)
Lemma run_iff_run_steps (w : World Env) k w' :
  (exists fuel, run fn fuel w = Some (k, w'))
  <-> (exists n, run_steps fn n R_set_keep w = (R_exit k, w')).
Proof.
  split.
  - intros [fuel H]. rewrite run_unfold in H.
    destruct (while_loop fn fuel _) as [[k1 w1]|] eqn:Hw; [|discriminate].
    injection H as <- <-.
    destruct (while_loop_run_steps _ _ Hw) as [n Hn].
    exists (2 + (n + 1)). cbn [Nat.add run_steps run_step].
    fold (with_timer (set_is_running true) (with_timer (set_keep_running true) w)).
    rewrite run_steps_app.
    change (with_timer (set_is_running true) (with_timer (set_keep_running true) w))
      with {| timer := set_is_running true (set_keep_running true (timer w));
              env := env w; calls := calls w |}.
    rewrite Hn. reflexivity.
  - intros [n H].
    destruct n as [|[|n]]; try discriminate. cbn [run_steps run_step] in H.
    destruct (run_steps_while_loop _ _ H) as (fuel & w1 & Hw & ->).
    exists fuel. rewrite run_unfold.
    change (with_timer (set_is_running true) (with_timer (set_keep_running true) w))
      with {| timer := set_is_running true (set_keep_running true (timer w));
              env := env w; calls := calls w |} in Hw.
    rewrite Hw. reflexivity.
Qed.

End Refinement.

(** * Invariants of the two-thread machine *)

Section MachineFacts.

Variable Env : Type.
Variable fn : Env -> Env * result.
Variable spurious : bool.

Ltac break_state s :=
  destruct s as [[[rf ws mx kr ir] e n] cpc p o wpc].

Ltac open_step H :=
  unfold step, caller_step, caller_call, run_async, destructor, worker_step,
    _notify_async_run_started, run_step, invoke, spurious_step, mutex_free,
    is_waiting, worker_finished, future_ready in H;
  simpl in H.

Ltac open_goal :=
  unfold step, caller_step, caller_call, run_async, destructor, worker_step,
    _notify_async_run_started, run_step, invoke, spurious_step, mutex_free,
    is_waiting, worker_finished, future_ready;
  simpl.

Ltac break_step H :=
  repeat first
    [ match type of H with
      | context [match ?x with _ => _ end] =>
          is_var x; destruct x; simpl in H; try discriminate H
      end
    | match type of H with
      | context [fn ?x] =>
          let e' := fresh "e" in destruct (fn x) as [e' [[|]|]]; simpl in H
      end
    | match type of H with
      | context [match ?x with _ => _ end] =>
          destruct x eqn:?; simpl in H; try discriminate H
      end ].

Ltac easy_case :=
  unfold worker_finished, is_waiting, future_ready, mutex_free in *;
  simpl in *;
  repeat match goal with
  | H : _ && _ = true |- _ => apply andb_prop in H; destruct H
  | H : _ \/ _ |- _ => destruct H
  | H : _ /\ _ |- _ => destruct H
  end;
  subst; simpl in *; try discriminate;
  repeat match goal with
  | H : context [match ?x with _ => _ end] |- _ =>
      is_var x; destruct x; simpl in *; try discriminate
  | |- context [match ?x with _ => _ end] =>
      is_var x; destruct x; simpl in *; try discriminate
  end;
  intuition (try congruence; try discriminate).

Ltac finish :=
  constructor; simpl in *;
  first
    [ solve [easy_case]
    | solve [match goal with w : worker_pc |- _ =>
               destruct w as [ | | | | [ | | | | | ] | ]; easy_case end]
    | solve [match goal with c : caller_pc |- _ => destruct c; easy_case end]
    | idtac ].

Lemma wf_init (e : Env) p : wf (init e p).
Proof. constructor; simpl; auto; discriminate. Qed.

Lemma wf_step l (s s' : State Env) :
  step fn spurious l s = Some s' -> wf s -> wf s'.
Proof.
  break_state s. intros H [H1 H2 H3 H4 H5 H6 H7].
  destruct l; open_step H.
  - break_step H; injection H as <-; finish.
  - break_step H; injection H as <-; finish.
  - break_step H; injection H as <-; finish.
Qed.

Lemma exec_invariant (P : State Env -> Prop) :
  (forall l s s', step fn spurious l s = Some s' -> P s -> P s') ->
  forall sched s s', exec fn spurious sched s = Some s' -> P s -> P s'.
Proof.
  intros Hstep. induction sched as [|l sched IH]; intros s s' H HP; simpl in H.
  - injection H as <-. exact HP.
  - destruct (step fn spurious l s) as [s1|] eqn:Hs; [|discriminate].
    eapply IH; [exact H|]. eapply Hstep; eassumption.
Qed.

Lemma wf_reachable e p (s : State Env) :
  reachable fn spurious e p s -> wf s.
Proof.
  intros [sched H]. eapply (exec_invariant (@wf Env)); [|exact H|apply wf_init].
  intros; eapply wf_step; eassumption.
Qed.

Lemma calls_step l (s s' : State Env) :
  step fn spurious l s = Some s' -> calls (world s) <= calls (world s').
Proof.
  break_state s. intros H.
  destruct l; open_step H.
  - break_step H; injection H as <-; simpl; lia.
  - break_step H; injection H as <-; simpl; lia.
  - break_step H; injection H as <-; simpl; lia.
Qed.

Lemma calls_exec sched : forall (s s' : State Env),
  exec fn spurious sched s = Some s' -> calls (world s) <= calls (world s').
Proof.
  induction sched as [|l sched IH]; intros s s' H; simpl in H.
  - injection H as <-. lia.
  - destruct (step fn spurious l s) as [s1|] eqn:Hs; [|discriminate].
    apply calls_step in Hs. apply IH in H. lia.
Qed.

Lemma unstopped_step c0 l (s s' : State Env) :
  step fn spurious l s = Some s' -> unstopped c0 s -> unstopped c0 s'.
Proof.
  break_state s. unfold unstopped. intros H (H1 & H2 & H3).
  destruct l; open_step H.
  - break_step H; injection H as <-; simpl in *; try discriminate;
      repeat split; auto; try lia;
      destruct wpc as [ | | | | [ | | | | | ] | ]; simpl in *; auto; try lia;
      try discriminate.
  - break_step H; injection H as <-; simpl in *; repeat split; auto; try lia;
      try discriminate.
  - break_step H; injection H as <-; simpl in *; repeat split; auto.
Qed.

Lemma stopping_step c l (s s' : State Env) :
  step fn spurious l s = Some s' -> stopping c s -> stopping c s'.
Proof.
  break_state s. unfold stopping, no_launch. intros H (H1 & (H2 & H2') & H3).
  destruct l; open_step H.
  - break_step H; injection H as <-; simpl in *; try discriminate;
      try congruence; repeat split; auto; try discriminate.
  - break_step H; injection H as <-; simpl in *; try discriminate;
      try contradiction; repeat split; auto; try lia.
  - break_step H; injection H as <-; simpl in *; repeat split; auto.
Qed.

Lemma handshake_step l (s s' : State Env) :
  spurious = false ->
  step fn spurious l s = Some s' -> wf s -> handshake s -> handshake s'.
Proof.
  break_state s. unfold handshake. intros -> H [H1 H2 H3 H4 H5 H6 H7] H8.
  destruct l; open_step H.
  - break_step H; injection H as <-; easy_case.
  - break_step H; injection H as <-; easy_case.
  - discriminate.
Qed.

Lemma handshake_reachable e p (s : State Env) :
  spurious = false -> reachable fn spurious e p s -> handshake s.
Proof.
  intros Hsp [sched H].
  cut (wf s /\ handshake s); [tauto|].
  eapply (exec_invariant (fun s => wf s /\ handshake s)); [|exact H|].
  - intros l s1 s2 Hs [Hw Hh]. split.
    + eapply wf_step; eassumption.
    + eapply handshake_step; eassumption.
  - split; [apply wf_init|]. intros _. left. reflexivity.
Qed.

Lemma same_but_keep_running_step l (s1 s1' s2 : State Env) :
  step fn spurious l s1 = Some s1' ->
  same_but_keep_running s1 s2 ->
  exists s2', step fn spurious l s2 = Some s2' /\ same_but_keep_running s1' s2'.
Proof.
  break_state s1. destruct s2 as [[[rf2 ws2 mx2 kr2 ir2] e2 n2] cpc2 p2 o2 wpc2].
  unfold same_but_keep_running. simpl.
  intros H (<- & <- & <- & <- & <- & <- & Ht & Hk).
  injection Ht as <- <- <- <-.
  destruct l; open_step H; open_goal.
  - break_step H; injection H as <-; simpl;
      (eexists; split; [reflexivity|]); simpl; repeat split; auto.
  - break_step H; injection H as <-; simpl in *;
      try (rewrite <- Hk by reflexivity);
      (eexists; split; [reflexivity|]); simpl; repeat split; auto;
      discriminate.
  - break_step H; injection H as <-; simpl;
      (eexists; split; [reflexivity|]); simpl; repeat split; auto.
Qed.

Lemma same_but_keep_running_exec sched : forall (s1 s1' s2 : State Env),
  exec fn spurious sched s1 = Some s1' ->
  same_but_keep_running s1 s2 ->
  exists s2', exec fn spurious sched s2 = Some s2' /\ same_but_keep_running s1' s2'.
Proof.
  induction sched as [|l sched IH]; intros s1 s1' s2 H Hs; simpl in H |- *.
  - injection H as <-. exists s2. split; [reflexivity|assumption].
  - destruct (step fn spurious l s1) as [t1|] eqn:Ht; [|discriminate].
    destruct (@same_but_keep_running_step l s1 t1 s2 Ht Hs) as (t2 & -> & Hs').
    eapply IH; eassumption.
Qed.

Lemma handshake_order_step l (s s' : State Env) :
  step fn spurious l s = Some s' -> wf s -> handshake_order s -> handshake_order s'.
Proof.
  break_state s. unfold handshake_order. intros H [H1 H2 H3 H4 H5 H6 H7] H8.
  destruct l; open_step H.
  - break_step H; injection H as <-; easy_case.
  - break_step H; injection H as <-; easy_case.
  - break_step H; injection H as <-; easy_case.
Qed.

Lemma handshake_order_reachable e p (s : State Env) :
  reachable fn spurious e p s -> handshake_order s.
Proof.
  intros [sched H].
  cut (wf s /\ handshake_order s); [tauto|].
  eapply (exec_invariant (fun s => wf s /\ handshake_order s)); [|exact H|].
  - intros l s1 s2 Hs [Hw Hh]. split.
    + eapply wf_step; eassumption.
    + eapply handshake_order_step; eassumption.
  - split; [apply wf_init|exact I].
Qed.

Lemma env_after_snoc n : forall e : Env,
  env_after fn (S n) e = fst (fn (env_after fn n e)).
Proof.
  induction n as [|n IH]; intros e; [reflexivity|].
  change (env_after fn (S (S n)) e) with (env_after fn (S n) (fst (fn e))).
  rewrite IH. reflexivity.
Qed.

(** From any state on, the captured state is what the invocations made
    since then produce, one after the other. *)
Lemma env_step l (s0 s s' : State Env) :
  step fn spurious l s = Some s' ->
  calls (world s0) <= calls (world s)
  /\ env (world s) = env_after fn (calls (world s) - calls (world s0)) (env (world s0)) ->
  calls (world s0) <= calls (world s')
  /\ env (world s') = env_after fn (calls (world s') - calls (world s0)) (env (world s0)).
Proof.
  break_state s. intros H [Hc He]. simpl in Hc, He.
  destruct l; open_step H.
  - break_step H; injection H as <-; simpl; auto.
  - destruct wpc as [ | | | | [ | | | | k | k] | ]; simpl in H; try discriminate;
      try (destruct mx; [discriminate|]);
      try (injection H as <-; simpl; auto; fail).
    + destruct kr; injection H as <-; simpl; auto.
    + assert (Hs : S n - calls (world s0) = S (n - calls (world s0))) by lia.
      destruct (fn e) as [e1 r] eqn:Hf.
      assert (He1 : e1 = fst (fn e)) by (rewrite Hf; reflexivity).
      destruct r as [[|]|]; injection H as <-;
        cbn [world env calls goto_worker with_world]; (split; [lia|]);
        rewrite Hs, env_after_snoc, <- He; exact He1.
  - break_step H; injection H as <-; simpl; auto.
Qed.

Lemma env_exec sched (s s' : State Env) :
  exec fn spurious sched s = Some s' ->
  env (world s') = env_after fn (calls (world s') - calls (world s)) (env (world s)).
Proof.
  intros H.
  cut (calls (world s) <= calls (world s')
       /\ env (world s')
          = env_after fn (calls (world s') - calls (world s)) (env (world s))); [tauto|].
  eapply (exec_invariant
            (fun t => calls (world s) <= calls (world t)
                      /\ env (world t)
                         = env_after fn (calls (world t) - calls (world s)) (env (world s))));
    [|exact H|].
  - intros l s1 s2 Hs. apply env_step with (1 := Hs).
  - split; [lia|]. rewrite Nat.sub_diag. reflexivity.
Qed.

Lemma first_check_passes_step c0 l (s s' : State Env) :
  step fn spurious l s = Some s' ->
  match l with
  | L_caller => stop_is_next s && before_first_check c0 s
  | _ => false
  end = false ->
  first_check_passes c0 s -> first_check_passes c0 s'.
Proof.
  break_state s. unfold first_check_passes, stop_is_next, before_first_check.
  intros H Hw (H1 & H2). simpl in Hw, H1, H2.
  destruct l; open_step H.
  - break_step H; injection H as <-; simpl in *; try discriminate;
      (split; [exact H1|]);
      try (destruct wpc as [ | | | | [ | | | | | ] | ]); simpl in *;
      try discriminate; auto; try lia;
      intros Hc; apply Nat.eqb_neq in Hw; contradiction.
  - break_step H; injection H as <-; simpl in *; try discriminate;
      (split; [lia|]); auto; try lia.
  - break_step H; injection H as <-; simpl in *; split; auto.
Qed.

Lemma first_check_passes_exec c0 sched : forall (s s' : State Env),
  exec fn spurious sched s = Some s' ->
  stop_in_window fn spurious c0 sched s = false ->
  first_check_passes c0 s -> first_check_passes c0 s'.
Proof.
  induction sched as [|l sched IH]; intros s s' H Hw Hf; simpl in H, Hw.
  - injection H as <-. exact Hf.
  - destruct (step fn spurious l s) as [s1|] eqn:Hs; [|discriminate].
    apply orb_false_iff in Hw. destruct Hw as [Hw1 Hw2].
    apply (IH s1 s' H Hw2). eapply first_check_passes_step; eassumption.
Qed.

Lemma invocation_due_step c0 l (s s' : State Env) :
  step fn spurious l s = Some s' -> invocation_due c0 s -> invocation_due c0 s'.
Proof.
  break_state s. unfold invocation_due. intros H (H1 & H2). simpl in H1, H2.
  destruct l; open_step H.
  - break_step H; injection H as <-; simpl in *; try discriminate;
      (split; [exact H1|]);
      first [ exact H2
            | destruct H2 as [H2 | H2]; [discriminate H2|right; exact H2] ].
  - break_step H; injection H as <-; simpl in *; try discriminate;
      (split; [lia|]);
      first [ left; reflexivity
            | destruct H2 as [H2 | H2]; [discriminate H2|right; lia]
            | right; lia ].
  - break_step H; injection H as <-; simpl in *; split; auto.
Qed.

Section Drained.

Variable terminal : Env -> Prop.
Hypothesis fn_terminal :
  forall e, snd (fn e) <> Ret true -> terminal (fst (fn e)).

Lemma drained_step l (s s' : State Env) :
  step fn spurious l s = Some s' -> drained terminal s -> drained terminal s'.
Proof.
  break_state s. unfold drained. intros H (H1 & H2).
  destruct l; open_step H.
  - break_step H; injection H as <-; simpl in *; try discriminate; split; auto;
      destruct wpc as [ | | | | [ | | | | | ] | ]; simpl in *; auto; discriminate.
  - destruct wpc as [ | | | | [ | | | | k | k] | ]; simpl in H; try discriminate;
      try (pose proof (fn_terminal e) as Ht);
      break_step H; injection H as <-; simpl in *; try discriminate;
      split; auto; apply Ht; discriminate.
  - break_step H; injection H as <-; simpl in *; split; auto.
Qed.

End Drained.

End MachineFacts.

Lemma countdown_terminal (c : Z) :
  snd (countdown c) <> Ret true -> fst (countdown c) = 0%Z.
Proof.
  pose proof (countdown_range c) as Hb.
  assert (Hr : snd (countdown c) = Ret (0 <? fst (countdown c))%Z) by reflexivity.
  destruct (countdown c) as [c' r]; simpl in *; subst r.
  destruct (0 <? c')%Z eqn:Hlt; [congruence|]. intros _.
  apply Z.ltb_ge in Hlt. lia.
Qed.



(** * Further facts shared by the statements below *)

Section Shared.

Variable Env : Type.
Variable fn : Env -> Env * result.

(** What [run] leaves in the object: the stop flag up, the liveness flag
    down, the rest as it was. *)
Lemma run_timer fuel (w : World Env) k w' :
  run fn fuel w = Some (k, w') ->
  timer w' = set_is_running false (set_keep_running true (timer w)).
Proof.
  rewrite run_unfold.
  destruct (while_loop fn fuel _) as [[k1 w1]|] eqn:Hw; [|discriminate].
  intros H. injection H as _ <-.
  apply while_loop_timer in Hw. simpl in *. rewrite Hw. reflexivity.
Qed.

Lemma run_calls fuel (w : World Env) k w' :
  run fn fuel w = Some (k, w') -> calls w < calls w'.
Proof.
  rewrite run_unfold.
  destruct (while_loop fn fuel _) as [[k1 w1]|] eqn:Hw; [|discriminate].
  intros H. injection H as _ <-.
  apply while_loop_calls in Hw; [exact Hw|reflexivity].
Qed.

Lemma run_after_stop fuel (w : World Env) :
  run fn fuel (with_timer stop w) = run fn fuel w.
Proof. reflexivity. Qed.

(** One step of [run] keeps the liveness flag in line with the program
    point. *)
Lemma run_step_live pc (w : World Env) :
  _is_running (timer w) = in_loop (W_run pc) ->
  _is_running (timer (snd (run_step fn pc w)))
  = in_loop (W_run (fst (run_step fn pc w))).
Proof.
  intros H. destruct pc; simpl in *; auto.
  - destruct (_keep_running (timer w)); simpl; exact H.
  - pose proof (invoke_timer fn w) as Ht.
    destruct (invoke fn w) as [w1 [[|]|]]; simpl in *; rewrite Ht; exact H.
Qed.

Lemma run_steps_live n : forall pc (w : World Env),
  _is_running (timer w) = in_loop (W_run pc) ->
  _is_running (timer (snd (run_steps fn n pc w)))
  = in_loop (W_run (fst (run_steps fn n pc w))).
Proof.
  induction n as [|n IH]; intros pc w H; simpl; [exact H|].
  pose proof (run_step_live pc w H) as Hs.
  destruct (run_step fn pc w) as [pc1 w1]. apply IH. exact Hs.
Qed.

Lemma live_reachable sp e p (s : State Env) :
  reachable fn sp e p s -> _is_running (timer (world s)) = in_loop (worker s).
Proof. intros H. apply wf_live. eapply wf_reachable. exact H. Qed.

End Shared.

(** * The blocking loop: termination after N invocations *)

(** C2.  A step function that returns true on its first N - 1 invocations
    and false on the N-th is invoked by [run] exactly N times, after which
    [run] returns (any fuel of at least N suffices); the captured state is
    the one N invocations produce.  The countdown of the tests, started at
    100, is invoked 100 times and left at 0. *)
Theorem run_invokes_exactly_N_times :
  (forall (Env : Type) (fn : Env -> Env * result) (N fuel : nat) (w : World Env),
      1 <= N ->
      true_then_false fn N (env w) = true ->
      N <= fuel ->
      run fn fuel w
      = Some (Normal,
              {| timer := set_is_running false (set_keep_running true (timer w));
                 env := env_after fn N (env w);
                 calls := calls w + N |}))
  /\ (forall (t : not_a_timer) (n : nat),
        run countdown 100 {| timer := t; env := 100%Z; calls := n |}
        = Some (Normal,
                {| timer := set_is_running false (set_keep_running true t);
                   env := 0%Z;
                   calls := n + 100 |})).
Proof.
  assert (G : forall (Env : Type) (fn : Env -> Env * result) (N fuel : nat) (w : World Env),
             true_then_false fn N (env w) = true -> N <= fuel ->
             run fn fuel w
             = Some (Normal,
                     {| timer := set_is_running false (set_keep_running true (timer w));
                        env := env_after fn N (env w);
                        calls := calls w + N |})).
  { intros Env fn N fuel w Hn Hf. rewrite run_unfold.
    rewrite (@while_loop_true_then_false Env fn N); simpl; auto. }
  split.
  - intros Env fn N fuel w _. apply G.
  - intros t n.
    destruct (countdown_true_then_false (n := 100)) as [Ht He]; [lia|reflexivity|].
    change (Z.of_nat 100) with 100%Z in Ht, He.
    rewrite (G Z countdown 100 100); simpl env; [|exact Ht|lia].
    rewrite He. reflexivity.
Qed.

(** The statement above, at the countdown started from 3. *)
Lemma run_invokes_exactly_N_times_witness :
  1 <= 3
  /\ true_then_false countdown 3 3%Z = true
  /\ 3 <= 5
  /\ run countdown 5 {| timer := default_constructed; env := 3%Z; calls := 0 |}
     = Some (Normal,
             {| timer := set_is_running false (set_keep_running true default_constructed);
                env := env_after countdown 3 3%Z;
                calls := 0 + 3 |}).
Proof.
  assert (H1 : 1 <= 3) by lia.
  assert (H2 : true_then_false countdown 3 3%Z = true) by (vm_compute; reflexivity).
  assert (H3 : 3 <= 5) by lia.
  split; [exact H1|]. split; [exact H2|]. split; [exact H3|].
  exact (proj1 run_invokes_exactly_N_times Z countdown 3 5
           {| timer := default_constructed; env := 3%Z; calls := 0 |} H1 H2 H3).
Defined.

(** * The liveness flag on every way out of [run] *)

(** C4.  However [run] is left, the liveness flag is down by then: the
    result of [run], returned or propagated, has [_is_running = false], and
    so has the exit of [run] executed step by step, which is a result of
    [run]; the loop is left in exactly three ways (the flag read false, the
    step function returned false, the step function threw), each of which
    goes through the janitor before the exit; and on the worker thread the
    flag is down whenever [run] is over. *)
Theorem run_clears_is_running_on_every_exit :
  forall (Env : Type) (fn : Env -> Env * result),
    (forall fuel (w : World Env) k w',
        run fn fuel w = Some (k, w') -> is_running (timer w') = false)
    /\ (forall (w : World Env),
          snd (fn (env w)) = Throw ->
          exists w', run fn 1 w = Some (Exceptional, w')
                     /\ is_running (timer w') = false)
    /\ (forall n (w : World Env) k w',
          run_steps fn n R_set_keep w = (R_exit k, w') ->
          (exists fuel, run fn fuel w = Some (k, w'))
          /\ is_running (timer w') = false)
    /\ (forall pc (w : World Env) k,
          fst (run_step fn pc w) = R_cleanup k ->
          (pc = R_check /\ _keep_running (timer w) = false /\ k = Normal)
          \/ (pc = R_call /\ snd (fn (env w)) = Ret false /\ k = Normal)
          \/ (pc = R_call /\ snd (fn (env w)) = Throw /\ k = Exceptional))
    /\ (forall pc (w : World Env) k,
          fst (run_step fn pc w) = R_exit k ->
          pc <> R_exit k ->
          pc = R_cleanup k
          /\ is_running (timer (snd (run_step fn pc w))) = false)
    /\ (forall sp e p (s : State Env) k,
          reachable fn sp e p s ->
          worker s = W_run (R_exit k) \/ worker s = W_done ->
          is_running (timer (world s)) = false).
Proof.
  intros Env fn. split; [|split; [|split; [|split; [|split]]]].
  - intros fuel w k w' H. apply run_timer in H. rewrite H. reflexivity.
  - intros w Hthrow. rewrite run_unfold. simpl. unfold invoke. simpl.
    destruct (fn (env w)) as [e r]. simpl in Hthrow. subst r.
    eexists. split; reflexivity.
  - intros n w k w' H.
    assert (Hr : exists fuel, run fn fuel w = Some (k, w'))
      by (apply run_iff_run_steps; exists n; exact H).
    split; [exact Hr|]. destruct Hr as [fuel Hr].
    apply run_timer in Hr. rewrite Hr. reflexivity.
  - intros pc w k H. destruct pc; simpl in H; try discriminate.
    + destruct (_keep_running (timer w)) eqn:Hk; simpl in H; [discriminate|].
      injection H as <-. left. auto.
    + unfold invoke in H. destruct (fn (env w)) as [e [[|]|]]; simpl in *;
        try discriminate; injection H as <-; auto.
  - intros pc w k H Hne. destruct pc; simpl in *; try discriminate.
    + destruct (_keep_running (timer w)); discriminate.
    + unfold invoke in H. destruct (fn (env w)) as [e [[|]|]]; discriminate.
    + injection H as <-. split; reflexivity.
    + congruence.
  - intros sp e p s k Hr Hw. unfold is_running.
    rewrite (live_reachable Hr). destruct Hw as [-> | ->]; reflexivity.
Qed.

(** The statement above where the step function throws on its first call,
    and on the worker thread after a countdown from 1. *)
Lemma run_clears_is_running_on_every_exit_witness :
  (exists w',
      run (fun e : Z => (e, Throw)) 1
          {| timer := default_constructed; env := 7%Z; calls := 0 |}
      = Some (Exceptional, w')
      /\ is_running (timer w') = false)
  /\ (exists s,
        reachable countdown false 1%Z [RunAsync] s
        /\ worker s = W_done
        /\ is_running (timer (world s)) = false).
Proof.
  split.
  - exact (proj1 (proj2 (run_clears_is_running_on_every_exit (fun e : Z => (e, Throw))))
             {| timer := default_constructed; env := 7%Z; calls := 0 |} eq_refl).
  - assert (Hr : reachable countdown false 1%Z [RunAsync]
                   (state_after countdown false
                      [L_caller; L_caller; L_caller; L_worker; L_worker; L_worker;
                       L_worker; L_worker; L_worker; L_worker; L_worker; L_worker]
                      (init 1%Z [RunAsync]))).
    { exists [L_caller; L_caller; L_caller; L_worker; L_worker; L_worker;
              L_worker; L_worker; L_worker; L_worker; L_worker; L_worker].
      vm_compute. reflexivity. }
    eexists. split; [exact Hr|]. split; [vm_compute; reflexivity|].
    exact (proj2 (proj2 (proj2 (proj2 (proj2
             (run_clears_is_running_on_every_exit countdown)))))
             false 1%Z [RunAsync] _ Normal Hr (or_intror eq_refl)).
Defined.

(** * The stop flag at the start of [run] *)

(** C6.  The first statement of [run] sets [_keep_running] to true whatever
    it was, so a [stop()] made before [run] changes nothing: [run] after
    [stop()] is [run], its first four steps reach and perform an invocation
    of the step function, and when it returns the step function has been
    invoked. *)
Theorem run_resets_keep_running :
  forall (Env : Type) (fn : Env -> Env * result) (w : World Env),
    fst (run_step fn R_set_keep w) = R_set_is
    /\ _keep_running (timer (snd (run_step fn R_set_keep w))) = true
    /\ (forall fuel, run fn fuel (with_timer stop w) = run fn fuel w)
    /\ calls (snd (run_steps fn 4 R_set_keep (with_timer stop w))) = S (calls w)
    /\ (forall fuel k w',
          run fn fuel (with_timer stop w) = Some (k, w') ->
          calls w < calls w' /\ _keep_running (timer w') = true).
Proof.
  intros Env fn w. split; [reflexivity|]. split; [reflexivity|].
  split; [intros fuel; apply run_after_stop|]. split.
  - simpl. unfold invoke. simpl. destruct (fn (env w)) as [e [[|]|]]; reflexivity.
  - intros fuel k w' H. rewrite run_after_stop in H. split.
    + exact (run_calls _ _ _ H).
    + rewrite (run_timer _ _ _ H). reflexivity.
Qed.

(** The statement above at a stopped, otherwise fresh object and the
    countdown from 2. *)
Lemma run_resets_keep_running_witness :
  run countdown 2
      (with_timer stop {| timer := default_constructed; env := 2%Z; calls := 0 |})
  = Some (Normal,
          {| timer := set_is_running false (set_keep_running true default_constructed);
             env := 0%Z; calls := 2 |})
  /\ 0 < 2
  /\ _keep_running
       (timer {| timer := set_is_running false (set_keep_running true default_constructed);
                 env := 0%Z; calls := 2 |}) = true.
Proof.
  assert (H : run countdown 2
                (with_timer stop {| timer := default_constructed; env := 2%Z; calls := 0 |})
              = Some (Normal,
                      {| timer := set_is_running false
                                    (set_keep_running true default_constructed);
                         env := 0%Z; calls := 2 |}))
    by (vm_compute; reflexivity).
  split; [exact H|].
  exact (proj2 (proj2 (proj2 (proj2
           (run_resets_keep_running countdown
              {| timer := default_constructed; env := 2%Z; calls := 0 |}))))
           2 Normal _ H).
Defined.

(** * When the liveness flag is up *)

(** C7.  [is_running()] is false on a freshly constructed object; it is
    false in the result of every [run]; and in between it is true exactly
    while the thread executing [run] is between the write that raises the
    flag and the janitor's write that lowers it, both for [run] stepped on
    its own and for the worker of the two-thread machine (where it is
    therefore false before the first [run_async] and once the loop is
    over). *)
Theorem is_running_only_inside_loop :
  is_running default_constructed = false
  /\ (forall (Env : Type) (fn : Env -> Env * result) fuel (w : World Env) k w',
        run fn fuel w = Some (k, w') -> is_running (timer w') = false)
  /\ (forall (Env : Type) (fn : Env -> Env * result) n (w : World Env),
        is_running (timer w) = false ->
        is_running (timer (snd (run_steps fn n R_set_keep w)))
        = in_loop (W_run (fst (run_steps fn n R_set_keep w))))
  /\ (forall (Env : Type) (fn : Env -> Env * result) sp e p (s : State Env),
        reachable fn sp e p s ->
        is_running (timer (world s)) = in_loop (worker s)).
Proof.
  split; [reflexivity|]. split; [|split].
  - intros Env fn fuel w k w' H. rewrite (run_timer _ _ _ H). reflexivity.
  - intros Env fn n w H. unfold is_running in *. apply run_steps_live. exact H.
  - intros Env fn sp e p s H. unfold is_running. apply live_reachable with (1 := H).
Qed.

(** The statement above: a [run] of the countdown from 2, and the machine
    after [run_async] has returned and the worker has raised the flag. *)
Lemma is_running_only_inside_loop_witness :
  (exists w',
      run countdown 2 {| timer := default_constructed; env := 2%Z; calls := 0 |}
      = Some (Normal, w')
      /\ is_running (timer w') = false)
  /\ (exists s,
        reachable countdown false 2%Z [RunAsync] s
        /\ worker s = W_run R_check
        /\ is_running (timer (world s)) = true).
Proof.
  split.
  - assert (H : run countdown 2 {| timer := default_constructed; env := 2%Z; calls := 0 |}
                = Some (Normal,
                        {| timer := set_is_running false
                                      (set_keep_running true default_constructed);
                           env := 0%Z; calls := 2 |}))
      by (vm_compute; reflexivity).
    eexists. split; [exact H|].
    exact (proj1 (proj2 is_running_only_inside_loop) Z countdown 2 _ Normal _ H).
  - assert (Hr : reachable countdown false 2%Z [RunAsync]
                   (state_after countdown false
                      [L_caller; L_caller; L_caller; L_worker; L_worker; L_worker;
                       L_caller; L_caller; L_worker; L_worker]
                      (init 2%Z [RunAsync]))).
    { exists [L_caller; L_caller; L_caller; L_worker; L_worker; L_worker;
              L_caller; L_caller; L_worker; L_worker].
      vm_compute. reflexivity. }
    eexists. split; [exact Hr|]. split; [vm_compute; reflexivity|].
    exact (proj2 (proj2 (proj2 is_running_only_inside_loop)) Z countdown
             false 2%Z [RunAsync] _ Hr).
Defined.

(** * At least one invocation *)

(** C10, as stated, fails: [run_async] then [stop()], with the [stop()]
    landing after the worker's [_keep_running = true] and before its first
    check.  [run] on the worker is over, the future is ready, and the step
    function was never invoked (the counter is still 3). *)
Lemma run_without_invocation_on_racing_stop :
  exists s,
    exec countdown false
      [L_caller; L_caller; L_caller;     (* lock, launch, wait *)
       L_worker; L_worker; L_worker;     (* lock, notify_all, unlock *)
       L_caller; L_caller;               (* wait returns, run_async returns *)
       L_worker; L_worker;               (* _keep_running = true, _is_running = true *)
       L_caller;                         (* stop() *)
       L_worker; L_worker; L_worker]     (* check fails, janitor, lambda returns *)
      (init 3%Z [RunAsync; Stop]) = Some s
    /\ worker s = W_done
    /\ calls (world s) = 0
    /\ env (world s) = 3%Z.
Proof. eexists. split; [vm_compute; reflexivity|]. repeat split. Qed.

(** C10, amended.  A call of [run] invokes the step function at least
    once, whatever the object's state at entry (a [stop()] made beforehand
    included), unless a [stop()] of another thread lands after [run]'s
    reset of [_keep_running] and before its first check.  For [run] on its
    own every result comes after an invocation.  On the worker thread, from
    the entry of [run] on and along every schedule in which no [stop()] is
    executed in that window, the invocation count has grown whenever the
    loop is found left, however many [stop()] calls come earlier or later;
    and once the first check has read true no [stop()] at all can prevent
    the invocation.  Conversely a [stop()] in the window does prevent it,
    for every step function: with the flag down before the first check the
    count never grows while no other loop is started, and the worker ends
    [run] within four of its steps without an invocation. *)
Theorem run_invokes_at_least_once :
  forall (Env : Type) (fn : Env -> Env * result),
    (forall fuel (w : World Env) k w',
        run fn fuel w = Some (k, w') -> calls w < calls w')
    /\ (forall fuel (t : not_a_timer) (e : Env) n k w',
          run fn fuel {| timer := stop t; env := e; calls := n |} = Some (k, w') ->
          n < calls w')
    /\ (forall sp sched (s0 s : State Env),
          worker s0 = W_run R_set_keep ->
          exec fn sp sched s0 = Some s ->
          stop_in_window fn sp (calls (world s0)) sched s0 = false ->
          loop_left (worker s) = true ->
          calls (world s0) < calls (world s))
    /\ (forall sp sched (s0 s : State Env),
          worker s0 = W_run R_call ->
          exec fn sp sched s0 = Some s ->
          loop_left (worker s) = true ->
          calls (world s0) < calls (world s))
    /\ (forall sp sched (s1 s : State Env),
          worker s1 = W_run R_set_is \/ worker s1 = W_run R_check ->
          _keep_running (timer (world s1)) = false ->
          no_launch s1 ->
          exec fn sp sched s1 = Some s ->
          calls (world s) = calls (world s1))
    /\ (forall sp (s1 : State Env),
          worker s1 = W_run R_set_is \/ worker s1 = W_run R_check ->
          _keep_running (timer (world s1)) = false ->
          exists k s,
            k <= 4
            /\ exec fn sp (repeat L_worker k) s1 = Some s
            /\ worker s = W_done
            /\ calls (world s) = calls (world s1)).
Proof.
  intros Env fn. split; [|split; [|split; [|split; [|split]]]].
  - intros fuel w k w' H. exact (run_calls _ _ _ H).
  - intros fuel t e n k w' H. exact (run_calls _ _ _ H).
  - intros sp sched s0 s Hw He Hs Hl.
    assert (Hf : first_check_passes (calls (world s0)) s).
    { apply (@first_check_passes_exec Env fn sp (calls (world s0)) sched s0 s He Hs).
      unfold first_check_passes. rewrite Hw. auto. }
    destruct Hf as [_ Hf].
    destruct (worker s) as [ | | | | [ | | | | | ] | ]; simpl in Hl;
      try discriminate; exact Hf.
  - intros sp sched s0 s Hw He Hl.
    assert (Hd : invocation_due (calls (world s0)) s).
    { eapply (@exec_invariant Env fn sp (invocation_due (calls (world s0))));
        [|exact He|].
      - intros l s1 s2 Hs. apply invocation_due_step with (1 := Hs).
      - split; [lia|left; exact Hw]. }
    destruct Hd as [_ [Hd | Hd]]; [|exact Hd].
    rewrite Hd in Hl. discriminate.
  - intros sp sched s1 s Hw Hk Hn He.
    assert (Hs : stopping (calls (world s1)) s).
    { eapply (@exec_invariant Env fn sp (stopping (calls (world s1))));
        [|exact He|].
      - intros l t1 t2 Hst. apply stopping_step with (1 := Hst).
      - unfold stopping. destruct Hw as [Hw | Hw]; rewrite Hw; auto. }
    pose proof (calls_exec _ _ _ _ He) as Hge.
    destruct Hs as (_ & _ & Hs).
    destruct (worker s) as [ | | | | [ | | | | | ] | ]; simpl in Hs;
      try contradiction; lia.
  - intros sp s1 Hw Hk.
    destruct s1 as [[[rf ws mx kr ir] e n] cpc p o wpc]. simpl in Hw, Hk. subst kr.
    destruct Hw as [-> | ->].
    + exists 4. eexists. split; [lia|]. split; [reflexivity|]. split; reflexivity.
    + exists 3. eexists. split; [lia|]. split; [reflexivity|]. split; reflexivity.
Qed.

(** The statement above on the worker thread with the countdown from 3:
    from the entry of [run], a [stop()] that comes after the first check
    has read true is not in the window, and the loop is left after an
    invocation. *)
Lemma run_invokes_at_least_once_witness :
  let s0 := state_after countdown false
              [L_caller; L_caller; L_caller; L_worker; L_worker; L_worker;
               L_caller; L_caller]
              (init 3%Z [RunAsync; Stop]) in
  let sched := [L_worker; L_worker; L_worker;      (* reset, flag, first check *)
                L_caller;                          (* stop() *)
                L_worker; L_worker; L_worker; L_worker] in
  let s := state_after countdown false sched s0 in
  worker s0 = W_run R_set_keep
  /\ exec countdown false sched s0 = Some s
  /\ stop_in_window countdown false (calls (world s0)) sched s0 = false
  /\ loop_left (worker s) = true
  /\ calls (world s0) < calls (world s).
Proof.
  cbv zeta.
  assert (H1 : worker (state_after countdown false
                 [L_caller; L_caller; L_caller; L_worker; L_worker; L_worker;
                  L_caller; L_caller]
                 (init 3%Z [RunAsync; Stop])) = W_run R_set_keep)
    by (vm_compute; reflexivity).
  assert (H2 : exec countdown false
                 [L_worker; L_worker; L_worker; L_caller;
                  L_worker; L_worker; L_worker; L_worker]
                 (state_after countdown false
                    [L_caller; L_caller; L_caller; L_worker; L_worker; L_worker;
                     L_caller; L_caller]
                    (init 3%Z [RunAsync; Stop]))
               = Some (state_after countdown false
                         [L_worker; L_worker; L_worker; L_caller;
                          L_worker; L_worker; L_worker; L_worker]
                         (state_after countdown false
                            [L_caller; L_caller; L_caller; L_worker; L_worker; L_worker;
                             L_caller; L_caller]
                            (init 3%Z [RunAsync; Stop]))))
    by (vm_compute; reflexivity).
  assert (H3 : stop_in_window countdown false
                 (calls (world (state_after countdown false
                    [L_caller; L_caller; L_caller; L_worker; L_worker; L_worker;
                     L_caller; L_caller]
                    (init 3%Z [RunAsync; Stop]))))
                 [L_worker; L_worker; L_worker; L_caller;
                  L_worker; L_worker; L_worker; L_worker]
                 (state_after countdown false
                    [L_caller; L_caller; L_caller; L_worker; L_worker; L_worker;
                     L_caller; L_caller]
                    (init 3%Z [RunAsync; Stop])) = false)
    by (vm_compute; reflexivity).
  assert (H4 : loop_left (worker (state_after countdown false
                         [L_worker; L_worker; L_worker; L_caller;
                          L_worker; L_worker; L_worker; L_worker]
                         (state_after countdown false
                            [L_caller; L_caller; L_caller; L_worker; L_worker; L_worker;
                             L_caller; L_caller]
                            (init 3%Z [RunAsync; Stop])))) = true)
    by (vm_compute; reflexivity).
  split; [exact H1|]. split; [exact H2|]. split; [exact H3|]. split; [exact H4|].
  exact (proj1 (proj2 (proj2 (run_invokes_at_least_once countdown)))
           false _ _ _ H1 H2 H3 H4).
Defined.

(** * The start handshake of [run_async] *)

(** C1, as stated, fails: [run_async] followed at once by [is_running()].
    The worker has notified and left [_notify_async_run_started], the
    caller's [wait] has returned and so has [run_async], but the worker has
    not yet executed the first statement of [run]: [is_running()] reads
    false.  No spurious wake-up is involved. *)
Lemma is_running_false_right_after_run_async :
  exists s,
    exec countdown false
      [L_caller; L_caller; L_caller;     (* lock, launch, wait *)
       L_worker; L_worker; L_worker;     (* lock, notify_all, unlock *)
       L_caller; L_caller;               (* wait returns, run_async returns *)
       L_caller]                         (* is_running() *)
      (init 3%Z [RunAsync; IsRunning]) = Some s
    /\ caller s = C_idle
    /\ prog s = []
    /\ worker s = W_run R_set_keep
    /\ obs s = [false].
Proof. eexists. split; [vm_compute; reflexivity|]. repeat split. Qed.

(** C1, amended.  When [wait] only returns on a notification, then once a
    detached loop has been launched and the owning thread is no longer
    inside the handshake (in particular when [wait] has returned and from
    the return of [run_async] on) the worker has called [notify_all]: it is
    at the release of the handshake mutex, inside [run], or done.  The
    liveness flag follows the worker's progress inside [run]: it is up
    exactly between the write that raises it and the janitor's write. *)
Theorem run_async_returns_after_notification :
  forall (Env : Type) (fn : Env -> Env * result) e p (s : State Env),
    reachable fn false e p s ->
    (caller s = A_unlock -> notified (worker s) = true)
    /\ (_running_fn (timer (world s)) <> None ->
        awaiting_start s = false ->
        notified (worker s) = true)
    /\ is_running (timer (world s)) = in_loop (worker s).
Proof.
  intros Env fn e p s Hr.
  pose proof (wf_reachable Hr) as Hw.
  pose proof (handshake_reachable eq_refl Hr) as Hh.
  unfold handshake in Hh. split; [|split].
  - intros Hc. destruct (notified (worker s)) eqn:Hn; [reflexivity|].
    pose proof (wf_launched Hw) as Hl. rewrite Hc in Hl.
    destruct (Hh eq_refl) as [Hi | [Ha | [Ha _]]]; congruence.
  - intros Hf Ha. destruct (notified (worker s)) eqn:Hn; [reflexivity|].
    pose proof (wf_future Hw) as Hfu. unfold awaiting_start in Ha.
    destruct (Hh eq_refl) as [Hi | [Hc | [Hc Hwt]]].
    + destruct (_running_fn (timer (world s))); [|congruence].
      destruct Hfu as [Hfu _]. congruence.
    + rewrite Hc in Ha. discriminate.
    + rewrite Hc in Ha. congruence.
  - unfold is_running. exact (wf_live Hw).
Qed.

(** The statement above at the state in which [wait] has just returned. *)
Lemma run_async_returns_after_notification_witness :
  let s := state_after countdown false
             [L_caller; L_caller; L_caller; L_worker; L_worker; L_worker; L_caller]
             (init 3%Z [RunAsync; IsRunning]) in
  reachable countdown false 3%Z [RunAsync; IsRunning] s
  /\ caller s = A_unlock
  /\ notified (worker s) = true
  /\ is_running (timer (world s)) = false.
Proof.
  assert (Hr : reachable countdown false 3%Z [RunAsync; IsRunning]
                 (state_after countdown false
                    [L_caller; L_caller; L_caller; L_worker; L_worker; L_worker; L_caller]
                    (init 3%Z [RunAsync; IsRunning]))).
  { exists [L_caller; L_caller; L_caller; L_worker; L_worker; L_worker; L_caller].
    vm_compute. reflexivity. }
  split; [exact Hr|]. split; [vm_compute; reflexivity|].
  split.
  - exact (proj1 (run_async_returns_after_notification Hr) eq_refl).
  - exact (proj2 (proj2 (run_async_returns_after_notification Hr))).
Defined.

(** * Destruction *)

(** C3.  The destructor, once it has found a launched loop, cannot move
    while the worker has not finished, and moves as soon as it has; so in
    every state in which the destructor has returned no detached loop is
    executing, and if one was launched its thread is done.  With no
    [stop()] in the owning thread's program, the captured state is then one
    in which the step function ended the loop: for the countdown, zero. *)
Theorem destructor_waits_for_detached_loop :
  (forall (Env : Type) (fn : Env -> Env * result) sp e p (s : State Env),
      reachable fn sp e p s ->
      (caller s = D_wait -> worker s <> W_done -> step fn sp L_caller s = None)
      /\ (caller s = D_wait -> worker s = W_done ->
          step fn sp L_caller s = Some (goto_caller C_destroyed s))
      /\ (caller s = C_destroyed ->
          in_loop (worker s) = false
          /\ worker_finished s = true
          /\ (_running_fn (timer (world s)) <> None -> worker s = W_done))
      /\ (forall terminal : Env -> Prop,
            (forall x, snd (fn x) <> Ret true -> terminal (fst (fn x))) ->
            mentions Stop p = false ->
            caller s = C_destroyed ->
            _running_fn (timer (world s)) <> None ->
            terminal (env (world s))))
  /\ (forall sp n p (s : State Z),
        mentions Stop p = false ->
        reachable countdown sp n p s ->
        caller s = C_destroyed ->
        _running_fn (timer (world s)) <> None ->
        env (world s) = 0%Z).
Proof.
  assert (G : forall (Env : Type) (fn : Env -> Env * result) sp e p (s : State Env),
             reachable fn sp e p s ->
             caller s = C_destroyed ->
             _running_fn (timer (world s)) <> None -> worker s = W_done).
  { intros Env fn sp e p s Hr Hc Hf.
    pose proof (wf_reachable Hr) as Hw.
    pose proof (wf_destroyed Hw Hc) as Hd. pose proof (wf_future Hw) as Hfu.
    unfold worker_finished in Hd.
    destruct (_running_fn (timer (world s))); [|congruence].
    destruct Hfu as [Hfu _].
    destruct (worker s); try discriminate; congruence. }
  assert (D : forall (Env : Type) (fn : Env -> Env * result) sp e p (s : State Env)
                     (terminal : Env -> Prop),
             (forall x, snd (fn x) <> Ret true -> terminal (fst (fn x))) ->
             mentions Stop p = false ->
             reachable fn sp e p s ->
             caller s = C_destroyed ->
             _running_fn (timer (world s)) <> None ->
             terminal (env (world s))).
  { intros Env fn sp e p s terminal Ht Hp Hr Hc Hf.
    pose proof (G _ _ _ _ _ _ Hr Hc Hf) as Hd.
    destruct Hr as [sched He].
    assert (Hdr : drained terminal s).
    { eapply (@exec_invariant Env fn sp (drained terminal)); [|exact He|].
      - intros l s1 s2 Hs. apply drained_step with (2 := Hs). exact Ht.
      - split; [exact Hp|exact I]. }
    destruct Hdr as [_ Hdr]. rewrite Hd in Hdr. exact Hdr. }
  split.
  - intros Env fn sp e p s Hr. pose proof (wf_reachable Hr) as Hw.
    pose proof (wf_future Hw) as Hfu. pose proof (wf_launched Hw) as Hl.
    split; [|split; [|split]].
    + intros Hc Hn. simpl. unfold caller_step, destructor, future_ready. rewrite Hc in *.
      destruct (_running_fn (timer (world s))) as [f|]; [|reflexivity].
      destruct Hfu as [_ Hfu]. rewrite Hfu.
      destruct (worker s); try reflexivity. congruence.
    + intros Hc Hd. simpl. unfold caller_step, destructor, future_ready. rewrite Hc in *.
      destruct (_running_fn (timer (world s))) as [f|]; [|congruence].
      destruct Hfu as [_ Hfu]. rewrite Hfu, Hd. reflexivity.
    + intros Hc. pose proof (wf_destroyed Hw Hc) as Hd. split; [|split].
      * unfold worker_finished in Hd. destruct (worker s); try discriminate; reflexivity.
      * exact Hd.
      * intros Hf. exact (G _ _ _ _ _ _ Hr Hc Hf).
    + intros terminal Ht Hp Hc Hf. exact (D _ _ _ _ _ _ _ Ht Hp Hr Hc Hf).
  - intros sp n p s Hp Hr Hc Hf.
    exact (D Z countdown sp n p s (fun x => x = 0%Z) countdown_terminal Hp Hr Hc Hf).
Qed.

(** The statement above for [run_async] then destruction, the countdown
    started at 2: the destructor is blocked while the worker is at the
    entry of [run], and has returned only with the counter at zero. *)
Lemma destructor_waits_for_detached_loop_witness :
  let s1 := state_after countdown false
              [L_caller; L_caller; L_caller; L_worker; L_worker; L_worker;
               L_caller; L_caller; L_caller]
              (init 2%Z [RunAsync; Destroy]) in
  let s2 := state_after countdown false
              [L_worker; L_worker; L_worker; L_worker; L_worker; L_worker;
               L_worker; L_worker; L_caller] s1 in
  (caller s1 = D_wait /\ worker s1 = W_run R_set_keep
   /\ step countdown false L_caller s1 = None)
  /\ (caller s2 = C_destroyed /\ worker s2 = W_done /\ env (world s2) = 0%Z).
Proof.
  assert (Hr1 : reachable countdown false 2%Z [RunAsync; Destroy]
                  (state_after countdown false
                     [L_caller; L_caller; L_caller; L_worker; L_worker; L_worker;
                      L_caller; L_caller; L_caller]
                     (init 2%Z [RunAsync; Destroy]))).
  { exists [L_caller; L_caller; L_caller; L_worker; L_worker; L_worker;
            L_caller; L_caller; L_caller].
    vm_compute. reflexivity. }
  assert (Hr2 : reachable countdown false 2%Z [RunAsync; Destroy]
                  (state_after countdown false
                     [L_worker; L_worker; L_worker; L_worker; L_worker; L_worker;
                      L_worker; L_worker; L_caller]
                     (state_after countdown false
                        [L_caller; L_caller; L_caller; L_worker; L_worker; L_worker;
                         L_caller; L_caller; L_caller]
                        (init 2%Z [RunAsync; Destroy])))).
  { exists ([L_caller; L_caller; L_caller; L_worker; L_worker; L_worker;
             L_caller; L_caller; L_caller]
            ++ [L_worker; L_worker; L_worker; L_worker; L_worker; L_worker;
                L_worker; L_worker; L_caller]).
    vm_compute. reflexivity. }
  split.
  - split; [vm_compute; reflexivity|]. split; [vm_compute; reflexivity|].
    apply (proj1 (proj1 destructor_waits_for_detached_loop _ _ _ _ _ _ Hr1)).
    + vm_compute. reflexivity.
    + vm_compute. discriminate.
  - split; [vm_compute; reflexivity|]. split; [vm_compute; reflexivity|].
    apply (proj2 destructor_waits_for_detached_loop false 2%Z [RunAsync; Destroy] _
             eq_refl Hr2).
    + vm_compute. reflexivity.
    + vm_compute. discriminate.
Defined.

(** * Cooperative stop *)

(** C5.  Every pass through the loop starts with the check: a check
    that reads [_keep_running] as true goes on to the invocation, a check
    that reads false ends [run] at once, through the janitor and without an
    invocation; an invocation that returns true goes back to the check, one
    that returns false ends [run] as well; so does the blocking loop, and
    so does the worker, which is done three steps after a check that read
    false.  Conversely the point before [fn()] is reached only from a check
    that read [_keep_running] as true, and the step function is invoked
    only from that point; the loop is left normally only by a check that
    read false or by an invocation that returned false.  Once the flag is down while
    [run] is past its reset of it (and no later [run_async] raises it
    again), a worker standing before a check never invokes the step
    function again, and a worker that has already passed the check invokes
    it at most once more: whatever the schedule, the number of invocations
    is unchanged in the first case and grows by at most one in the
    second. *)
Theorem stop_checked_before_each_invocation :
  forall (Env : Type) (fn : Env -> Env * result),
    (forall pc (w : World Env),
        fst (run_step fn pc w) = R_call ->
        pc = R_check /\ _keep_running (timer w) = true /\ snd (run_step fn pc w) = w)
    /\ (forall pc (w : World Env),
          calls (snd (run_step fn pc w)) <> calls w -> pc = R_call)
    /\ (forall pc (w : World Env),
          fst (run_step fn pc w) = R_cleanup Normal ->
          (pc = R_check /\ _keep_running (timer w) = false
           /\ calls (snd (run_step fn pc w)) = calls w)
          \/ (pc = R_call /\ snd (fn (env w)) = Ret false))
    /\ (forall sp sched (s s' : State Env),
          _keep_running (timer (world s)) = false ->
          no_launch s ->
          exec fn sp sched s = Some s' ->
          (worker s = W_run R_set_is \/ worker s = W_run R_check ->
           calls (world s') = calls (world s))
          /\ (worker s = W_run R_call -> calls (world s') <= S (calls (world s))))
    /\ (forall w : World Env,
          _keep_running (timer w) = true -> run_step fn R_check w = (R_call, w))
    /\ (forall w : World Env,
          _keep_running (timer w) = false ->
          run_step fn R_check w = (R_cleanup Normal, w)
          /\ run_steps fn 2 R_check w
             = (R_exit Normal, with_timer (set_is_running false) w)
          /\ forall fuel, while_loop fn (S fuel) w = Some (Normal, w))
    /\ (forall w : World Env,
          calls (snd (run_step fn R_call w)) = S (calls w)
          /\ env (snd (run_step fn R_call w)) = fst (fn (env w))
          /\ timer (snd (run_step fn R_call w)) = timer w
          /\ fst (run_step fn R_call w)
             = match snd (fn (env w)) with
               | Ret true => R_check
               | Ret false => R_cleanup Normal
               | Throw => R_cleanup Exceptional
               end)
    /\ (forall w : World Env,
          snd (fn (env w)) = Ret false ->
          fst (run_steps fn 2 R_call w) = R_exit Normal
          /\ calls (snd (run_steps fn 2 R_call w)) = S (calls w)
          /\ forall fuel,
               _keep_running (timer w) = true ->
               exists w', while_loop fn (S fuel) w = Some (Normal, w')
                          /\ calls w' = S (calls w))
    /\ (forall sp (s : State Env),
          _keep_running (timer (world s)) = false ->
          worker s = W_run R_check ->
          exists s',
            exec fn sp [L_worker; L_worker; L_worker] s = Some s'
            /\ worker s' = W_done
            /\ calls (world s') = calls (world s)
            /\ is_running (timer (world s')) = false).
Proof.
  intros Env fn.
  split; [|split; [|split; [|split; [|split; [|split; [|split; [|split]]]]]]].
  - intros pc w H. destruct pc; simpl in *; try discriminate.
    + destruct (_keep_running (timer w)); [auto|discriminate].
    + unfold invoke in H. destruct (fn (env w)) as [e [[|]|]]; discriminate.
  - intros pc w H. destruct pc; simpl in *; try reflexivity; try congruence.
    destruct (_keep_running (timer w)); simpl in H; congruence.
  - intros pc w H. destruct pc; simpl in *; try discriminate.
    + destruct (_keep_running (timer w)); [discriminate|]. left. auto.
    + right. split; [reflexivity|]. unfold invoke in H.
      destruct (fn (env w)) as [e [[|]|]]; simpl in *; try discriminate. reflexivity.
  - intros sp sched s s' Hk Hn He.
    pose proof (calls_exec _ _ _ _ He) as Hge.
    assert (Hinv : forall c, stopping c s -> calls (world s') <= c).
    { intros c Hs.
      assert (Hs' : stopping c s').
      { eapply (@exec_invariant Env fn sp (stopping c)); [|exact He|exact Hs].
        intros l s1 s2 Hst. apply stopping_step with (1 := Hst). }
      destruct Hs' as (_ & _ & Hs').
      destruct (worker s') as [ | | | | [ | | | | | ] | ]; simpl in Hs';
        try contradiction; lia. }
    split; intros Hw.
    + apply Nat.le_antisymm; [|exact Hge]. apply Hinv.
      unfold stopping. destruct Hw as [Hw | Hw]; rewrite Hw; auto.
    + apply Hinv. unfold stopping. rewrite Hw. auto.
  - intros w Hk. simpl. rewrite Hk. reflexivity.
  - intros w Hk. split; [|split].
    + simpl. rewrite Hk. reflexivity.
    + simpl. rewrite Hk. reflexivity.
    + intros fuel. simpl. rewrite Hk. reflexivity.
  - intros w. simpl. unfold invoke.
    destruct (fn (env w)) as [e [[|]|]]; simpl; repeat split.
  - intros w Hf. simpl. unfold invoke.
    destruct (fn (env w)) as [e r] eqn:He. simpl in Hf. subst r. simpl.
    split; [reflexivity|]. split; [reflexivity|].
    intros fuel Hk. rewrite Hk. eexists. split; reflexivity.
  - intros sp s Hk Hw.
    destruct s as [[[rf ws mx kr ir] e n] cpc p o wpc]. simpl in Hk, Hw.
    subst kr wpc. eexists. split; [reflexivity|]. repeat split.
Qed.

(** The statement above with the countdown from 3: a [stop()] that finds
    the worker at a check is followed by no invocation, one that finds it
    past the check by exactly one. *)
Lemma stop_checked_before_each_invocation_witness :
  let s := state_after countdown false
             [L_caller; L_caller; L_caller; L_worker; L_worker; L_worker;
              L_caller; L_caller; L_worker; L_worker; L_caller]
             (init 3%Z [RunAsync; Stop]) in
  let t := state_after countdown false
             [L_caller; L_caller; L_caller; L_worker; L_worker; L_worker;
              L_caller; L_caller; L_worker; L_worker; L_worker; L_caller]
             (init 3%Z [RunAsync; Stop]) in
  (worker s = W_run R_check
   /\ calls (world (state_after countdown false [L_worker; L_worker; L_worker] s))
      = calls (world s))
  /\ (worker t = W_run R_call
      /\ calls (world (state_after countdown false
                         [L_worker; L_worker; L_worker; L_worker] t)) = 1
      /\ 1 <= S (calls (world t))).
Proof.
  split.
  - split; [vm_compute; reflexivity|].
    apply (proj1 (proj2 (proj2 (proj2 (stop_checked_before_each_invocation countdown))))
             false [L_worker; L_worker; L_worker]).
    + vm_compute. reflexivity.
    + split; [vm_compute; reflexivity|vm_compute; discriminate].
    + vm_compute. reflexivity.
    + right. vm_compute. reflexivity.
  - split; [vm_compute; reflexivity|]. split; [vm_compute; reflexivity|].
    change 1 with (calls (world (state_after countdown false
                                   [L_worker; L_worker; L_worker; L_worker]
                                   (state_after countdown false
             [L_caller; L_caller; L_caller; L_worker; L_worker; L_worker;
              L_caller; L_caller; L_worker; L_worker; L_worker; L_caller]
             (init 3%Z [RunAsync; Stop]))))) at 1.
    apply (proj1 (proj2 (proj2 (proj2 (stop_checked_before_each_invocation countdown))))
             false [L_worker; L_worker; L_worker; L_worker]).
    + vm_compute. reflexivity.
    + split; [vm_compute; reflexivity|vm_compute; discriminate].
    + vm_compute. reflexivity.
    + vm_compute. reflexivity.
Defined.

(** * [stop()] and [is_running()] as operations on the object *)

(** C8.  [stop()] is a total function, so it cannot fail; twice is once;
    on an object whose flag is already down it changes nothing; the owning
    thread's call is enabled in every state, before any [run] too.  While
    no loop depends on the flag it is invisible: [is_running()] is
    unchanged, a later [run] behaves the same, and every schedule the
    machine can follow without the call it can follow with it, through
    states with the same program points, observations, captured state and
    invocation count. *)
Theorem stop_idempotent :
  (forall t : not_a_timer, stop (stop t) = stop t)
  /\ (forall t : not_a_timer, _keep_running t = false -> stop t = t)
  /\ (forall t : not_a_timer, is_running (stop t) = is_running t)
  /\ (forall (Env : Type) (fn : Env -> Env * result) sp (s : State Env) p,
        caller s = C_idle ->
        prog s = Stop :: p ->
        step fn sp L_caller s = Some (with_world (with_timer stop) (with_prog p s)))
  /\ (forall (Env : Type) (fn : Env -> Env * result) fuel (w : World Env),
        run fn fuel (with_timer stop w) = run fn fuel w)
  /\ (forall (Env : Type) (fn : Env -> Env * result) sp sched (s s1 : State Env),
        flag_live (worker s) = false ->
        exec fn sp sched s = Some s1 ->
        exists s2,
          exec fn sp sched (with_world (with_timer stop) s) = Some s2
          /\ caller s2 = caller s1 /\ worker s2 = worker s1 /\ prog s2 = prog s1
          /\ obs s2 = obs s1
          /\ env (world s2) = env (world s1)
          /\ calls (world s2) = calls (world s1)
          /\ is_running (timer (world s2)) = is_running (timer (world s1))).
Proof.
  split; [reflexivity|]. split; [|split; [reflexivity|split; [|split]]].
  - intros [rf ws mx kr ir] H. simpl in H. subst kr. reflexivity.
  - intros Env fn sp s p Hc Hp. simpl. unfold caller_step. rewrite Hc, Hp. reflexivity.
  - intros Env fn fuel w. apply run_after_stop.
  - intros Env fn sp sched s s1 Hl He.
    assert (Hs : same_but_keep_running s (with_world (with_timer stop) s)).
    { unfold same_but_keep_running. simpl. rewrite Hl.
      repeat split; auto. discriminate. }
    destruct (@same_but_keep_running_exec Env fn sp sched s s1 _ He Hs)
      as (s2 & He2 & H1 & H2 & H3 & H4 & H5 & H6 & H7 & _).
    exists s2. repeat split; auto.
    unfold is_running.
    change (_is_running (timer (world s2)))
      with (_is_running (set_keep_running true (timer (world s2)))).
    rewrite <- H7. reflexivity.
Qed.

(** The statement above: [stop()] on a fresh object, and a [run_async] of
    the countdown observed afterwards, with and without a [stop()] made
    before it. *)
Lemma stop_idempotent_witness :
  stop (stop default_constructed) = stop default_constructed
  /\ (let sched := [L_caller; L_caller; L_caller; L_worker; L_worker; L_worker;
                    L_caller; L_caller; L_worker; L_worker; L_worker; L_worker;
                    L_caller] in
      exists s2,
        exec countdown false sched
          (with_world (with_timer stop) (init 2%Z [RunAsync; IsRunning])) = Some s2
        /\ obs s2 = [true]
        /\ calls (world s2) = 1).
Proof.
  split; [exact (proj1 stop_idempotent default_constructed)|].
  cbv zeta.
  assert (Hl : flag_live (worker (init 2%Z [RunAsync; IsRunning])) = false)
    by reflexivity.
  assert (He0 : exec countdown false
                  [L_caller; L_caller; L_caller; L_worker; L_worker; L_worker;
                   L_caller; L_caller; L_worker; L_worker; L_worker; L_worker; L_caller]
                  (init 2%Z [RunAsync; IsRunning])
                = Some {| world := {| timer := {| _running_fn := Some (mkFuture false false);
                                                  _async_run_started := [];
                                                  _mutex := None;
                                                  _keep_running := true;
                                                  _is_running := true |};
                                      env := 1%Z;
                                      calls := 1 |};
                          caller := C_idle;
                          prog := [];
                          obs := [true];
                          worker := W_run R_check |})
    by (vm_compute; reflexivity).
  destruct (proj2 (proj2 (proj2 (proj2 (proj2 stop_idempotent)))) Z countdown false
              _ _ _ Hl He0)
    as (s2 & He & _ & _ & _ & Ho & _ & Hc & _).
  exists s2. split; [exact He|]. split; [exact Ho|exact Hc].
Defined.

(** C9.  [stop()] writes [_keep_running] and nothing else: the future, the
    condition variable, the mutex and the liveness flag are as before, and
    in the machine the call leaves the captured state, the invocation
    count, the observations and both program points alone.  [is_running()]
    returns the liveness flag and writes nothing: the call adds the value
    read to the observations, the world is the same. *)
Theorem stop_writes_only_keep_running :
  (forall t : not_a_timer,
      stop t = {| _running_fn := _running_fn t;
                  _async_run_started := _async_run_started t;
                  _mutex := _mutex t;
                  _keep_running := false;
                  _is_running := _is_running t |})
  /\ (forall (Env : Type) (s : State Env),
        caller_call Stop s
        = Some {| world := {| timer := stop (timer (world s));
                              env := env (world s);
                              calls := calls (world s) |};
                  caller := caller s;
                  prog := prog s;
                  obs := obs s;
                  worker := worker s |})
  /\ (forall (Env : Type) (s : State Env),
        caller_call IsRunning s
        = Some {| world := world s;
                  caller := caller s;
                  prog := prog s;
                  obs := _is_running (timer (world s)) :: obs s;
                  worker := worker s |}).
Proof. split; [|split]; reflexivity. Qed.

(** * Further properties of the blocking loop *)

Section SelfStopFacts.

Variable Env : Type.
Variable sfn : Env -> Env * result * bool.

Lemma run_may_stop_unfold fuel (w : World Env) :
  run_may_stop sfn fuel w
  = match while_loop_may_stop sfn fuel
            {| timer := set_is_running true (set_keep_running true (timer w));
               env := env w; calls := calls w |} with
    | Some (k, w') => Some (k, with_timer (set_is_running false) w')
    | None => None
    end.
Proof. reflexivity. Qed.


(** With every invocation returning true and none calling [stop()], no
    amount of fuel lets the loop finish. *)
Lemma while_loop_may_stop_endless fuel : forall (w : World Env),
  (forall x, snd (base sfn x) = Ret true /\ calls_stop sfn x = false) ->
  _keep_running (timer w) = true ->
  while_loop_may_stop sfn fuel w = None.
Proof.
  induction fuel as [|fuel IH]; intros w Ht Hk; cbn [while_loop_may_stop];
    [reflexivity|].
  rewrite Hk. unfold invoke_may_stop. destruct (Ht (env w)) as [Hr Hs].
  unfold base, calls_stop in Hr, Hs.
  destruct (sfn (env w)) as [[e r] st]. cbn [fst snd] in Hr, Hs. subst r st.
  apply IH; [exact Ht|exact Hk].
Qed.


End SelfStopFacts.

(** A step function that never calls [stop()] is one of the plain ones:
    the two embeddings of [run] agree on it. *)
Lemma run_may_stop_plain (Env : Type) (fn : Env -> Env * result) fuel :
  forall w : World Env,
    run_may_stop (fun e => (fn e, false)) fuel w = run fn fuel w.
Proof.
  assert (L : forall fuel (w : World Env),
             while_loop_may_stop (fun e => (fn e, false)) fuel w = while_loop fn fuel w).
  { clear fuel. induction fuel as [|fuel IH]; intros w; [reflexivity|].
    cbn [while_loop_may_stop while_loop].
    destruct (_keep_running (timer w)); [|reflexivity].
    unfold invoke_may_stop, invoke.
    destruct (fn (env w)) as [e [[|]|]]; try reflexivity. }
  intros w. rewrite run_may_stop_unfold, run_unfold, L. reflexivity.
Qed.





(** X3.  The counter of the tests: an invocation never throws; it ends the
    loop exactly when the counter was 1; from 0 the unsigned decrement
    wraps to [2 ^ 64 - 1] and the loop goes on; from anything else the
    counter goes down by one. *)
Theorem countdown_ends_at_one :
  forall c : Z,
    (0 <= c < 2 ^ 64)%Z ->
    snd (countdown c) <> Throw
    /\ (snd (countdown c) = Ret false <-> c = 1%Z)
    /\ (c = 0%Z -> countdown c = ((2 ^ 64 - 1)%Z, Ret true))
    /\ ((1 <= c)%Z -> fst (countdown c) = (c - 1)%Z).
Proof.
  intros c Hc. split; [discriminate|]. split; [|split].
  - destruct (Z.eq_dec c 0) as [->|Hn].
    + split; intros H; [|discriminate]. vm_compute in H. discriminate.
    + rewrite countdown_small by lia. simpl. split.
      * intros H. injection H as H. apply Z.ltb_ge in H. lia.
      * intros ->. reflexivity.
  - intros ->. vm_compute. reflexivity.
  - intros H. rewrite countdown_small by lia. reflexivity.
Qed.

(** The statement above at 0, where the counter wraps. *)
Lemma countdown_ends_at_one_witness :
  (0 <= 0 < 2 ^ 64)%Z
  /\ countdown 0 = ((2 ^ 64 - 1)%Z, Ret true).
Proof.
  assert (H : (0 <= 0 < 2 ^ 64)%Z) by (split; [lia|reflexivity]).
  split; [exact H|].
  exact (proj1 (proj2 (proj2 (@countdown_ends_at_one 0%Z H))) eq_refl).
Defined.

(** X4.  The blocking test for every start value: a counter started at
    any [n] from 1 up to [2 ^ 64 - 1] makes [run] return after exactly [n]
    invocations with the counter at zero. *)
Theorem run_countdown_from_any_start :
  forall (n fuel c : nat) (t : not_a_timer),
    0 < n ->
    (Z.of_nat n < 2 ^ 64)%Z ->
    n <= fuel ->
    run countdown fuel {| timer := t; env := Z.of_nat n; calls := c |}
    = Some (Normal,
            {| timer := set_is_running false (set_keep_running true t);
               env := 0%Z;
               calls := c + n |}).
Proof.
  intros n fuel c t Hn Hb Hf.
  destruct (countdown_true_then_false Hn Hb) as [Ht He].
  rewrite run_unfold.
  rewrite (@while_loop_true_then_false Z countdown n); simpl; auto.
  rewrite He. reflexivity.
Qed.

(** The statement above for a counter started at 7. *)
Lemma run_countdown_from_any_start_witness :
  0 < 7
  /\ (Z.of_nat 7 < 2 ^ 64)%Z
  /\ 7 <= 7
  /\ run countdown 7 {| timer := default_constructed; env := Z.of_nat 7; calls := 0 |}
     = Some (Normal,
             {| timer := set_is_running false (set_keep_running true default_constructed);
                env := 0%Z;
                calls := 0 + 7 |}).
Proof.
  assert (H1 : 0 < 7) by lia.
  assert (H2 : (Z.of_nat 7 < 2 ^ 64)%Z) by reflexivity.
  assert (H3 : 7 <= 7) by lia.
  split; [exact H1|]. split; [exact H2|]. split; [exact H3|].
  exact (@run_countdown_from_any_start 7 7 0 default_constructed H1 H2 H3).
Defined.

(** * Further properties of the two-thread machine *)

Section MachineExtras.

Variable Env : Type.
Variable fn : Env -> Env * result.
Variable spurious : bool.

Lemma destroyed_done e p (s : State Env) :
  reachable fn spurious e p s ->
  caller s = C_destroyed ->
  _running_fn (timer (world s)) <> None ->
  worker s = W_done.
Proof.
  intros Hr Hc Hf. pose proof (wf_reachable Hr) as Hw.
  pose proof (wf_destroyed Hw Hc) as Hd. pose proof (wf_future Hw) as Hfu.
  unfold worker_finished in Hd.
  destruct (_running_fn (timer (world s))); [|congruence].
  destruct Hfu as [Hfu _].
  destruct (worker s); try discriminate; congruence.
Qed.

Lemma exec_app a : forall b (s : State Env),
  exec fn spurious (a ++ b) s
  = match exec fn spurious a s with
    | Some s1 => exec fn spurious b s1
    | None => None
    end.
Proof.
  induction a as [|l a IH]; intros b s; simpl; [reflexivity|].
  destruct (step fn spurious l s); [apply IH|reflexivity].
Qed.

(** Invocations still to come once the flag is down for good. *)
Lemma calls_after_stop sched (s s' : State Env) c :
  stopping c s ->
  exec fn spurious sched s = Some s' ->
  calls (world s) <= calls (world s') <= c.
Proof.
  intros Hs He. split; [exact (calls_exec _ _ _ _ He)|].
  assert (Hs' : stopping c s').
  { eapply (@exec_invariant Env fn spurious (stopping c)); [|exact He|exact Hs].
    intros l s1 s2 Hst. apply stopping_step with (1 := Hst). }
  destruct Hs' as (_ & _ & Hs').
  destruct (worker s') as [ | | | | [ | | | | | ] | ]; simpl in Hs';
    try contradiction; lia.
Qed.

End MachineExtras.

(** X5.  The handshake mutex has at most one owner, and the owner is told
    by the program points: the owning thread holds it from its lock in
    [run_async] to its [wait] and again from the return of [wait] to the
    return of [run_async]; the worker holds it inside
    [_notify_async_run_started]; both never hold it together. *)
Theorem mutex_has_one_owner :
  forall (Env : Type) (fn : Env -> Env * result) sp e p (s : State Env),
    reachable fn sp e p s ->
    (_mutex (timer (world s)) = Some Caller <-> caller_holds (caller s) = true)
    /\ (_mutex (timer (world s)) = Some Worker <-> worker_holds (worker s) = true)
    /\ (_mutex (timer (world s)) = None <->
        caller_holds (caller s) = false /\ worker_holds (worker s) = false)
    /\ caller_holds (caller s) && worker_holds (worker s) = false.
Proof.
  intros Env fn sp e p s Hr. pose proof (wf_reachable Hr) as Hw.
  pose proof (wf_mutex Hw) as Hm. pose proof (wf_excl Hw) as Hx.
  rewrite Hm.
  destruct (caller_holds (caller s)), (worker_holds (worker s));
    simpl in Hx; try discriminate;
    repeat split; intros; try discriminate; try reflexivity;
    match goal with H : _ /\ _ |- _ => destruct H; discriminate end.
Qed.

(** The statement above while the worker is about to notify. *)
Lemma mutex_has_one_owner_witness :
  let s := state_after countdown false
             [L_caller; L_caller; L_caller; L_worker]
             (init 3%Z [RunAsync]) in
  reachable countdown false 3%Z [RunAsync] s
  /\ worker s = W_notify
  /\ caller s = A_blocked
  /\ _mutex (timer (world s)) = Some Worker.
Proof.
  assert (Hr : reachable countdown false 3%Z [RunAsync]
                 (state_after countdown false
                    [L_caller; L_caller; L_caller; L_worker]
                    (init 3%Z [RunAsync]))).
  { exists [L_caller; L_caller; L_caller; L_worker]. vm_compute. reflexivity. }
  split; [exact Hr|]. split; [vm_compute; reflexivity|].
  split; [vm_compute; reflexivity|].
  exact (proj2 (proj1 (proj2 (mutex_has_one_owner Hr))) eq_refl).
Defined.

(** X6.  No notification is lost: when [wait] only returns on a
    notification, the worker reaches [notify_all] only while the owning
    thread is blocked in [wait], registered with the condition variable;
    and before the worker has locked the mutex the owning thread is either
    about to wait or waiting. *)
Theorem notify_all_finds_the_caller_waiting :
  forall (Env : Type) (fn : Env -> Env * result) e p (s : State Env),
    reachable fn false e p s ->
    (worker s = W_notify ->
     caller s = A_blocked /\ is_waiting Caller s = true)
    /\ (worker s = W_lock ->
        caller s = A_wait \/ (caller s = A_blocked /\ is_waiting Caller s = true)).
Proof.
  intros Env fn e p s Hr.
  pose proof (wf_reachable Hr) as Hw.
  pose proof (handshake_reachable eq_refl Hr) as Hh. unfold handshake in Hh.
  pose proof (wf_excl Hw) as Hx.
  split; intros Hwk; rewrite Hwk in *; simpl in *.
  - destruct (Hh eq_refl) as [Hi | [Ha | Ha]]; [discriminate| |exact Ha].
    rewrite Ha in Hx. discriminate.
  - destruct (Hh eq_refl) as [Hi | Ha]; [discriminate|exact Ha].
Qed.

(** The statement above while the worker is about to notify. *)
Lemma notify_all_finds_the_caller_waiting_witness :
  let s := state_after countdown false
             [L_caller; L_caller; L_caller; L_worker]
             (init 3%Z [RunAsync]) in
  reachable countdown false 3%Z [RunAsync] s
  /\ worker s = W_notify
  /\ caller s = A_blocked
  /\ is_waiting Caller s = true.
Proof.
  assert (Hr : reachable countdown false 3%Z [RunAsync]
                 (state_after countdown false
                    [L_caller; L_caller; L_caller; L_worker]
                    (init 3%Z [RunAsync]))).
  { exists [L_caller; L_caller; L_caller; L_worker]. vm_compute. reflexivity. }
  split; [exact Hr|]. split; [vm_compute; reflexivity|].
  exact (proj1 (notify_all_finds_the_caller_waiting Hr) eq_refl).
Defined.

(** X7.  In the machine the captured state is touched by nothing but the
    loop's invocations, one after the other: in every reachable state it
    is the initial one after as many invocations as were counted, whatever
    the owning thread did in between. *)
Theorem captured_state_tracks_invocations :
  forall (Env : Type) (fn : Env -> Env * result) sp e p (s : State Env),
    reachable fn sp e p s ->
    env (world s) = env_after fn (calls (world s)) e.
Proof.
  intros Env fn sp e p s [sched H].
  rewrite (@env_exec Env fn sp sched (init e p) s H). simpl. rewrite Nat.sub_0_r. reflexivity.
Qed.

(** The statement above after two invocations of the countdown from 5. *)
Lemma captured_state_tracks_invocations_witness :
  let s := state_after countdown false
             [L_caller; L_caller; L_caller; L_worker; L_worker; L_worker;
              L_worker; L_worker; L_worker; L_worker; L_worker; L_worker]
             (init 5%Z [RunAsync; Stop]) in
  reachable countdown false 5%Z [RunAsync; Stop] s
  /\ calls (world s) = 2
  /\ env (world s) = env_after countdown 2 5%Z.
Proof.
  assert (Hr : reachable countdown false 5%Z [RunAsync; Stop]
                 (state_after countdown false
                    [L_caller; L_caller; L_caller; L_worker; L_worker; L_worker;
                     L_worker; L_worker; L_worker; L_worker; L_worker; L_worker]
                    (init 5%Z [RunAsync; Stop]))).
  { exists [L_caller; L_caller; L_caller; L_worker; L_worker; L_worker;
            L_worker; L_worker; L_worker; L_worker; L_worker; L_worker].
    vm_compute. reflexivity. }
  split; [exact Hr|]. split; [vm_compute; reflexivity|].
  exact (captured_state_tracks_invocations Hr).
Defined.

(** X8.  A [stop()] that finds the loop running freezes the captured
    state up to the one invocation already decided on: with the flag down
    and no later [run_async], a worker standing before a check leaves the
    captured state and the invocation count as they are for good, and a
    worker past the check leaves them as they are or as one more
    invocation makes them. *)
Theorem stop_freezes_captured_state :
  forall (Env : Type) (fn : Env -> Env * result) sp sched (s s' : State Env),
    _keep_running (timer (world s)) = false ->
    no_launch s ->
    exec fn sp sched s = Some s' ->
    (worker s = W_run R_set_is \/ worker s = W_run R_check ->
     env (world s') = env (world s) /\ calls (world s') = calls (world s))
    /\ (worker s = W_run R_call ->
        (env (world s') = env (world s) /\ calls (world s') = calls (world s))
        \/ (env (world s') = fst (fn (env (world s)))
            /\ calls (world s') = S (calls (world s)))).
Proof.
  intros Env fn sp sched s s' Hk Hn He.
  pose proof (@env_exec Env fn sp sched s s' He) as Henv.
  split; intros Hw.
  - assert (Hc : calls (world s) <= calls (world s') <= calls (world s)).
    { apply calls_after_stop with (2 := He). unfold stopping.
      destruct Hw as [Hw | Hw]; rewrite Hw; auto. }
    assert (Heq : calls (world s') = calls (world s)) by lia.
    rewrite Heq, Nat.sub_diag in Henv. split; [exact Henv|exact Heq].
  - assert (Hc : calls (world s) <= calls (world s') <= S (calls (world s))).
    { apply calls_after_stop with (2 := He). unfold stopping. rewrite Hw. auto. }
    destruct (Nat.eq_dec (calls (world s')) (calls (world s))) as [Heq | Hne].
    + left. rewrite Heq, Nat.sub_diag in Henv. split; [exact Henv|exact Heq].
    + right. assert (Heq : calls (world s') = S (calls (world s))) by lia.
      split; [|exact Heq].
      rewrite Heq in Henv.
      replace (S (calls (world s)) - calls (world s)) with 1 in Henv by lia.
      exact Henv.
Qed.

(** The statement above with the countdown from 3 and a [stop()] that
    finds the worker past its first check. *)
Lemma stop_freezes_captured_state_witness :
  let t := state_after countdown false
             [L_caller; L_caller; L_caller; L_worker; L_worker; L_worker;
              L_caller; L_caller; L_worker; L_worker; L_worker; L_caller]
             (init 3%Z [RunAsync; Stop]) in
  let t' := state_after countdown false
              [L_worker; L_worker; L_worker; L_worker] t in
  worker t = W_run R_call
  /\ worker t' = W_done
  /\ ((env (world t') = env (world t) /\ calls (world t') = calls (world t))
      \/ (env (world t') = 2%Z /\ calls (world t') = 1)).
Proof.
  split; [vm_compute; reflexivity|]. split; [vm_compute; reflexivity|].
  apply (proj2 (@stop_freezes_captured_state Z countdown false
                  [L_worker; L_worker; L_worker; L_worker]
                  (state_after countdown false
                     [L_caller; L_caller; L_caller; L_worker; L_worker; L_worker;
                      L_caller; L_caller; L_worker; L_worker; L_worker; L_caller]
                     (init 3%Z [RunAsync; Stop]))
                  _
                  ltac:(vm_compute; reflexivity)
                  ltac:(split; [vm_compute; reflexivity | vm_compute; discriminate])
                  ltac:(vm_compute; reflexivity))).
  vm_compute. reflexivity.
Defined.

(** X9.  The stopped test: when [stop()] finds the countdown's loop
    running with the counter at 2 or more, the counter never reaches zero
    afterwards; it stays where it is or one below. *)
Theorem stop_leaves_counter_positive :
  forall sp sched (s s' : State Z),
    _keep_running (timer (world s)) = false ->
    no_launch s ->
    flag_live (worker s) = true ->
    (2 <= env (world s) < 2 ^ 64)%Z ->
    exec countdown sp sched s = Some s' ->
    (0 < env (world s'))%Z
    /\ (env (world s) - 1 <= env (world s') <= env (world s))%Z.
Proof.
  intros sp sched s s' Hk Hn Hl Hb He.
  pose proof (@env_exec Z countdown sp sched s s' He) as Henv.
  assert (Hc : calls (world s) <= calls (world s') <= S (calls (world s))).
  { destruct (worker s) as [ | | | | [ | | | | | ] | ] eqn:Hw; simpl in Hl;
      try discriminate.
    - assert (calls (world s) <= calls (world s') <= calls (world s)); [|lia].
      apply calls_after_stop with (2 := He). unfold stopping. rewrite Hw. auto.
    - assert (calls (world s) <= calls (world s') <= calls (world s)); [|lia].
      apply calls_after_stop with (2 := He). unfold stopping. rewrite Hw. auto.
    - apply calls_after_stop with (2 := He). unfold stopping. rewrite Hw. auto. }
  destruct (Nat.eq_dec (calls (world s')) (calls (world s))) as [Heq | Hne].
  - rewrite Heq, Nat.sub_diag in Henv. simpl in Henv. lia.
  - assert (Heq : calls (world s') = S (calls (world s))) by lia.
    rewrite Heq in Henv.
    replace (S (calls (world s)) - calls (world s)) with 1 in Henv by lia.
    cbn [env_after] in Henv. rewrite countdown_small in Henv by lia.
    simpl in Henv. lia.
Qed.

(** The statement above with the countdown from 3 and a [stop()] that
    finds the worker past its first check. *)
Lemma stop_leaves_counter_positive_witness :
  let t := state_after countdown false
             [L_caller; L_caller; L_caller; L_worker; L_worker; L_worker;
              L_caller; L_caller; L_worker; L_worker; L_worker; L_caller]
             (init 3%Z [RunAsync; Stop]) in
  let t' := state_after countdown false
              [L_worker; L_worker; L_worker; L_worker] t in
  worker t = W_run R_call
  /\ worker t' = W_done
  /\ (0 < env (world t'))%Z
  /\ (env (world t) - 1 <= env (world t') <= env (world t))%Z.
Proof.
  split; [vm_compute; reflexivity|]. split; [vm_compute; reflexivity|].
  exact (@stop_leaves_counter_positive false
           [L_worker; L_worker; L_worker; L_worker]
           (state_after countdown false
              [L_caller; L_caller; L_caller; L_worker; L_worker; L_worker;
               L_caller; L_caller; L_worker; L_worker; L_worker; L_caller]
              (init 3%Z [RunAsync; Stop]))
           _
           ltac:(vm_compute; reflexivity)
           ltac:(split; [vm_compute; reflexivity | vm_compute; discriminate])
           ltac:(vm_compute; reflexivity)
           ltac:(vm_compute; split; [discriminate | reflexivity])
           ltac:(vm_compute; reflexivity)).
Defined.

(** X10.  A [stop()] that lands before the worker has executed the first
    statement of [run] is lost: whatever the stop flag holds while the
    worker has not yet reset it, if the owning thread has no further
    [stop()] to make, the loop is left only in a state in which the step
    function itself ended it. *)
Theorem stop_before_reset_is_lost :
  forall (Env : Type) (fn : Env -> Env * result) (terminal : Env -> Prop)
         sp sched (s s' : State Env),
    (forall x, snd (fn x) <> Ret true -> terminal (fst (fn x))) ->
    pre_reset (worker s) = true ->
    mentions Stop (prog s) = false ->
    exec fn sp sched s = Some s' ->
    loop_left (worker s') = true ->
    terminal (env (world s')).
Proof.
  intros Env fn terminal sp sched s s' Ht Hp Hs He Hl.
  assert (Hd : drained terminal s').
  { eapply (@exec_invariant Env fn sp (drained terminal)); [|exact He|].
    - intros l s1 s2 Hst. apply drained_step with (2 := Hst). exact Ht.
    - split; [exact Hs|].
      destruct (worker s) as [ | | | | [ | | | | | ] | ]; simpl in Hp;
        try discriminate; exact I. }
  destruct Hd as [_ Hd].
  destruct (worker s') as [ | | | | [ | | | | | ] | ]; simpl in Hl;
    try discriminate; exact Hd.
Qed.

(** The statement above for [run_async] followed at once by [stop()]: the
    flag is down when the worker enters [run], and the countdown from 3
    still runs to zero. *)
Lemma stop_before_reset_is_lost_witness :
  let s := state_after countdown false
             [L_caller; L_caller; L_caller; L_worker; L_worker; L_worker;
              L_caller; L_caller; L_caller]
             (init 3%Z [RunAsync; Stop]) in
  let s' := state_after countdown false
              [L_worker; L_worker; L_worker; L_worker; L_worker; L_worker;
               L_worker; L_worker; L_worker; L_worker] s in
  worker s = W_run R_set_keep
  /\ _keep_running (timer (world s)) = false
  /\ worker s' = W_done
  /\ env (world s') = 0%Z.
Proof.
  split; [vm_compute; reflexivity|]. split; [vm_compute; reflexivity|].
  split; [vm_compute; reflexivity|].
  exact (@stop_before_reset_is_lost Z countdown (fun x => x = 0%Z) false
           [L_worker; L_worker; L_worker; L_worker; L_worker; L_worker;
            L_worker; L_worker; L_worker; L_worker]
           (state_after countdown false
              [L_caller; L_caller; L_caller; L_worker; L_worker; L_worker;
               L_caller; L_caller; L_caller]
              (init 3%Z [RunAsync; Stop]))
           _
           countdown_terminal
           ltac:(vm_compute; reflexivity)
           ltac:(vm_compute; reflexivity)
           ltac:(vm_compute; reflexivity)
           ltac:(vm_compute; reflexivity)).
Defined.

(** X11.  A step function that always returns true and never calls
    [stop()] on its runner: [run] on its own never returns, whatever the
    fuel; and in the two-thread machine, whose step functions work on what
    they captured only, a detached loop that the owning thread never stops
    is never left, so a destructor called after [run_async] never
    returns. *)
Theorem endless_loop_needs_stop :
  (forall (Env : Type) (sfn : Env -> Env * result * bool),
      (forall x, snd (base sfn x) = Ret true /\ calls_stop sfn x = false) ->
      forall fuel (w : World Env), run_may_stop sfn fuel w = None)
  /\ (forall (Env : Type) (fn : Env -> Env * result),
        (forall x, snd (fn x) = Ret true) ->
        forall sp e p (s : State Env),
          mentions Stop p = false ->
          reachable fn sp e p s ->
          loop_left (worker s) = false
          /\ (caller s = C_destroyed -> _running_fn (timer (world s)) = None)).
Proof.
  split.
  - intros Env sfn Ht fuel w. rewrite run_may_stop_unfold.
    rewrite while_loop_may_stop_endless; [reflexivity|exact Ht|reflexivity].
  - intros Env fn Ht sp e p s Hp Hr.
    assert (Hd : drained (fun _ : Env => False) s).
    { destruct Hr as [sched He].
      eapply (@exec_invariant Env fn sp (drained (fun _ : Env => False)));
        [|exact He|].
      - intros l s1 s2 Hst. apply drained_step with (2 := Hst).
        intros x Hx. apply Hx. apply Ht.
      - split; [exact Hp|exact I]. }
    destruct Hd as [_ Hd].
    assert (Hl : loop_left (worker s) = false).
    { destruct (worker s) as [ | | | | [ | | | | | ] | ]; simpl in *;
        try reflexivity; contradiction. }
    split; [exact Hl|].
    intros Hc. destruct (_running_fn (timer (world s))) as [f|] eqn:Hf; [|reflexivity].
    assert (Hw : worker s = W_done).
    { apply (destroyed_done Hr Hc). rewrite Hf. discriminate. }
    rewrite Hw in Hl. discriminate.
Qed.

(** The statement above for the step function that does nothing, returns
    true and never calls [stop()]: alone, and detached with the destructor
    waiting for it. *)
Lemma endless_loop_needs_stop_witness :
  run_may_stop (fun e : unit => (e, Ret true, false)) 1000
    {| timer := default_constructed; env := tt; calls := 0 |} = None
  /\ (let s := state_after (fun e : unit => (e, Ret true)) false
                 [L_caller; L_caller; L_caller; L_worker; L_worker; L_worker;
                  L_caller; L_caller; L_caller;
                  L_worker; L_worker; L_worker; L_worker; L_worker; L_worker]
                 (init tt [RunAsync; Destroy]) in
      caller s = D_wait
      /\ calls (world s) = 2
      /\ loop_left (worker s) = false).
Proof.
  split.
  - exact (proj1 endless_loop_needs_stop unit (fun e : unit => (e, Ret true, false))
             (fun x => conj eq_refl eq_refl)
             1000 {| timer := default_constructed; env := tt; calls := 0 |}).
  - cbv zeta. split; [vm_compute; reflexivity|]. split; [vm_compute; reflexivity|].
    assert (Hr : reachable (fun e : unit => (e, Ret true)) false tt [RunAsync; Destroy]
                   (state_after (fun e : unit => (e, Ret true)) false
                      [L_caller; L_caller; L_caller; L_worker; L_worker; L_worker;
                       L_caller; L_caller; L_caller;
                       L_worker; L_worker; L_worker; L_worker; L_worker; L_worker]
                      (init tt [RunAsync; Destroy]))).
    { exists [L_caller; L_caller; L_caller; L_worker; L_worker; L_worker;
              L_caller; L_caller; L_caller;
              L_worker; L_worker; L_worker; L_worker; L_worker; L_worker].
      vm_compute. reflexivity. }
    exact (proj1 (proj2 endless_loop_needs_stop unit (fun e : unit => (e, Ret true))
                    (fun x => eq_refl) false tt [RunAsync; Destroy] _ eq_refl Hr)).
Defined.

(** X12.  After a [stop()] the loop is over within four steps of the
    worker: from any state in which the flag is down and the worker is
    inside the loop, at most four worker steps, with at most one
    invocation among them, bring it to the end of the lambda, with the
    liveness flag down and the future ready, so that a destructor waiting
    for it can return. *)
Theorem stopped_loop_finishes_within_four_steps :
  forall (Env : Type) (fn : Env -> Env * result) sp (s : State Env),
    _keep_running (timer (world s)) = false ->
    flag_live (worker s) = true ->
    exists k s',
      k <= 4
      /\ exec fn sp (repeat L_worker k) s = Some s'
      /\ worker s' = W_done
      /\ is_running (timer (world s')) = false
      /\ future_ready s' = true
      /\ calls (world s') <= S (calls (world s))
      /\ (caller s = D_wait ->
          step fn sp L_caller s' = Some (goto_caller C_destroyed s')).
Proof.
  intros Env fn sp s Hk Hl.
  destruct s as [[[rf ws mx kr ir] e n] cpc p o wpc]. simpl in Hk, Hl. subst kr.
  destruct wpc as [ | | | | [ | | | | | ] | ]; simpl in Hl; try discriminate.
  - exists 4. eexists. split; [lia|]. split; [reflexivity|].
    simpl. repeat split; auto. intros ->. reflexivity.
  - exists 3. eexists. split; [lia|]. split; [reflexivity|].
    simpl. repeat split; auto. intros ->. reflexivity.
  - destruct (fn e) as [e1 [[|]|]] eqn:Hf.
    + exists 4. eexists. split; [lia|]. split.
      * simpl. unfold worker_step, run_step, invoke. simpl. rewrite Hf. simpl. reflexivity.
      * simpl. repeat split; auto. intros ->. reflexivity.
    + exists 3. eexists. split; [lia|]. split.
      * simpl. unfold worker_step, run_step, invoke. simpl. rewrite Hf. simpl. reflexivity.
      * simpl. repeat split; auto. intros ->. reflexivity.
    + exists 3. eexists. split; [lia|]. split.
      * simpl. unfold worker_step, run_step, invoke. simpl. rewrite Hf. simpl. reflexivity.
      * simpl. repeat split; auto. intros ->. reflexivity.
Qed.

(** The statement above with the countdown from 3, a [stop()] that finds
    the worker past its first check, and the destructor already waiting. *)
Lemma stopped_loop_finishes_within_four_steps_witness :
  let t := state_after countdown false
             [L_caller; L_caller; L_caller; L_worker; L_worker; L_worker;
              L_caller; L_caller; L_worker; L_worker; L_worker; L_caller; L_caller]
             (init 3%Z [RunAsync; Stop; Destroy]) in
  _keep_running (timer (world t)) = false
  /\ worker t = W_run R_call
  /\ caller t = D_wait
  /\ exists k s',
       k <= 4
       /\ exec countdown false (repeat L_worker k) t = Some s'
       /\ worker s' = W_done
       /\ step countdown false L_caller s' = Some (goto_caller C_destroyed s').
Proof.
  cbv zeta.
  assert (H1 : _keep_running (timer (world (state_after countdown false
             [L_caller; L_caller; L_caller; L_worker; L_worker; L_worker;
              L_caller; L_caller; L_worker; L_worker; L_worker; L_caller; L_caller]
             (init 3%Z [RunAsync; Stop; Destroy])))) = false)
    by (vm_compute; reflexivity).
  assert (H2 : flag_live (worker (state_after countdown false
             [L_caller; L_caller; L_caller; L_worker; L_worker; L_worker;
              L_caller; L_caller; L_worker; L_worker; L_worker; L_caller; L_caller]
             (init 3%Z [RunAsync; Stop; Destroy]))) = true)
    by (vm_compute; reflexivity).
  split; [exact H1|]. split; [vm_compute; reflexivity|].
  split; [vm_compute; reflexivity|].
  destruct (@stopped_loop_finishes_within_four_steps Z countdown false _ H1 H2)
    as (k & s' & Hk & He & Hw & _ & _ & _ & Hd).
  exists k, s'. split; [exact Hk|]. split; [exact He|]. split; [exact Hw|].
  apply Hd. vm_compute. reflexivity.
Defined.

(** X13.  The handshake of [run_async] cannot get stuck: from every
    reachable state in which the owning thread is inside [run_async] past
    the launch, at most six steps of the two threads, none of them an
    invocation of the step function, bring [run_async] to its return. *)
Theorem run_async_handshake_can_complete :
  forall (Env : Type) (fn : Env -> Env * result) sp e p (s : State Env),
    reachable fn sp e p s ->
    in_handshake (caller s) = true ->
    exists sched s',
      length sched <= 6
      /\ exec fn sp sched s = Some s'
      /\ caller s' = C_idle
      /\ prog s' = prog s
      /\ calls (world s') = calls (world s)
      /\ env (world s') = env (world s).
Proof.
  intros Env fn sp e p s Hr Hc.
  pose proof (wf_reachable Hr) as Hw.
  pose proof (handshake_order_reachable Hr) as Ho.
  destruct Hw as [H1 H2 H3 H4 H5 H6 H7].
  destruct s as [[[rf ws mx kr ir] e0 n] cpc p0 o wpc].
  unfold handshake_order, is_waiting in Ho. simpl in *.
  assert (T : forall sched s',
             length sched <= 6 ->
             exec fn sp sched
               {| world := {| timer := {| _running_fn := rf;
                                          _async_run_started := ws;
                                          _mutex := mx;
                                          _keep_running := kr;
                                          _is_running := ir |};
                              env := e0; calls := n |};
                  caller := cpc; prog := p0; obs := o; worker := wpc |} = Some s' ->
             caller s' = C_idle -> prog s' = p0 ->
             calls (world s') = n -> env (world s') = e0 ->
             exists sched s',
               length sched <= 6
               /\ exec fn sp sched
                    {| world := {| timer := {| _running_fn := rf;
                                               _async_run_started := ws;
                                               _mutex := mx;
                                               _keep_running := kr;
                                               _is_running := ir |};
                                   env := e0; calls := n |};
                       caller := cpc; prog := p0; obs := o; worker := wpc |} = Some s'
               /\ caller s' = C_idle /\ prog s' = p0
               /\ calls (world s') = n /\ env (world s') = e0).
  { intros sched s' Hlen He Ha Hb Hd Hf. exists sched, s'. auto 10. }
  destruct cpc; simpl in Hc; try discriminate; simpl in H1, H3, H6, Ho.
  - (* about to wait: the worker has not moved *)
    subst wpc mx. destruct H3 as [-> | [_ Hx]]; [|discriminate].
    eapply (T [L_caller; L_worker; L_worker; L_worker; L_caller; L_caller]);
      [simpl; lia|reflexivity|reflexivity|reflexivity|reflexivity|reflexivity].
  - (* blocked in wait *)
    destruct H3 as [-> | [-> _]].
    + destruct wpc as [ | | | | pc | ]; simpl in H1; subst mx;
        try (exfalso; apply H6; reflexivity).
      * eapply (T [L_caller; L_caller]);
          [simpl; lia|reflexivity|reflexivity|reflexivity|reflexivity|reflexivity].
      * eapply (T [L_worker; L_worker; L_caller; L_caller]);
          [simpl; lia|reflexivity|reflexivity|reflexivity|reflexivity|reflexivity].
      * eapply (T [L_worker; L_caller; L_caller]);
          [simpl; lia|reflexivity|reflexivity|reflexivity|reflexivity|reflexivity].
      * eapply (T [L_caller; L_caller]);
          [simpl; lia|reflexivity|reflexivity|reflexivity|reflexivity|reflexivity].
      * eapply (T [L_caller; L_caller]);
          [simpl; lia|reflexivity|reflexivity|reflexivity|reflexivity|reflexivity].
    + destruct (Ho eq_refl) as [-> | ->]; simpl in H1; subst mx.
      * eapply (T [L_worker; L_worker; L_worker; L_caller; L_caller]);
          [simpl; lia|reflexivity|reflexivity|reflexivity|reflexivity|reflexivity].
      * eapply (T [L_worker; L_worker; L_caller; L_caller]);
          [simpl; lia|reflexivity|reflexivity|reflexivity|reflexivity|reflexivity].
  - (* [wait] has returned *)
    subst mx.
    eapply (T [L_caller]);
      [simpl; lia|reflexivity|reflexivity|reflexivity|reflexivity|reflexivity].
Qed.

(** The statement above from the state in which the owning thread is
    about to wait. *)
Lemma run_async_handshake_can_complete_witness :
  let s := state_after countdown false [L_caller; L_caller]
             (init 3%Z [RunAsync; IsRunning]) in
  reachable countdown false 3%Z [RunAsync; IsRunning] s
  /\ caller s = A_wait
  /\ exists sched s',
       length sched <= 6
       /\ exec countdown false sched s = Some s'
       /\ caller s' = C_idle
       /\ prog s' = [IsRunning].
Proof.
  cbv zeta.
  assert (Hr : reachable countdown false 3%Z [RunAsync; IsRunning]
                 (state_after countdown false [L_caller; L_caller]
                    (init 3%Z [RunAsync; IsRunning]))).
  { exists [L_caller; L_caller]. vm_compute. reflexivity. }
  split; [exact Hr|]. split; [vm_compute; reflexivity|].
  destruct (run_async_handshake_can_complete Hr eq_refl)
    as (sched & s' & Hl & He & Hc & Hp & _).
  exists sched, s'. split; [exact Hl|]. split; [exact He|]. split; [exact Hc|].
  exact Hp.
Defined.

(** X14.  [wait] is called without a predicate, so a wake-up without a
    notification ends the handshake early: whatever the step function,
    [run_async] can then return while the launched thread has not taken a
    single step, not even the lock of [_notify_async_run_started]. *)
Theorem spurious_wakeup_returns_before_thread_start :
  forall (Env : Type) (fn : Env -> Env * result) (e : Env) (p : list cmd),
  exists s,
    exec fn true
      [L_caller; L_caller; L_caller;   (* lock, launch, wait *)
       L_spurious;                     (* woken without notification *)
       L_caller; L_caller]             (* wait returns, run_async returns *)
      (init e (RunAsync :: p)) = Some s
    /\ caller s = C_idle
    /\ prog s = p
    /\ worker s = W_lock
    /\ notified (worker s) = false
    /\ is_running (timer (world s)) = false
    /\ calls (world s) = 0.
Proof. intros Env fn e p. eexists. split; [reflexivity|]. repeat split. Qed.

(** X15.  After such an early return a second [run_async] deadlocks: the
    owning thread holds the mutex and waits in the assignment for the
    first task to finish, while the first task waits for the mutex.  No
    thread can move, and no wake-up is pending. *)
Theorem second_run_async_after_spurious_wakeup_deadlocks :
  forall (Env : Type) (fn : Env -> Env * result) (e : Env) (p : list cmd),
  exists s,
    exec fn true
      [L_caller; L_caller; L_caller; L_spurious; L_caller; L_caller;
       L_caller]                       (* the second run_async locks *)
      (init e (RunAsync :: RunAsync :: p)) = Some s
    /\ caller s = A_launch
    /\ worker s = W_lock
    /\ _mutex (timer (world s)) = Some Caller
    /\ (forall l, step fn true l s = None).
Proof.
  intros Env fn e p. eexists. split; [reflexivity|].
  split; [reflexivity|]. split; [reflexivity|]. split; [reflexivity|].
  intros [ | | ]; reflexivity.
Qed.

(** X16.  A stale stop flag does not keep a detached loop from running:
    from every reachable state in which [std::async] has launched the
    thread and the owning thread stands before [wait], whatever
    [_keep_running] holds (also false, from a [stop()] made before this
    [run_async], on a runner used for the first time or again), the
    handshake can complete and the worker then performs an invocation of
    the step function. *)
Theorem launched_loop_runs_despite_stale_stop :
  forall (Env : Type) (fn : Env -> Env * result) sp e p0 (s : State Env),
    reachable fn sp e p0 s ->
    caller s = A_wait ->
    exists s',
      exec fn sp
        [L_caller;                         (* wait *)
         L_worker; L_worker; L_worker;     (* lock, notify_all, unlock *)
         L_caller; L_caller;               (* wait returns, run_async returns *)
         L_worker; L_worker;               (* the two flags are raised *)
         L_worker; L_worker]               (* check, invocation *)
        s = Some s'
      /\ caller s' = C_idle
      /\ prog s' = prog s
      /\ calls (world s') = S (calls (world s))
      /\ env (world s') = fst (fn (env (world s))).
Proof.
  intros Env fn sp e p0 s Hr Hc.
  pose proof (handshake_order_reachable Hr) as Ho.
  pose proof (wf_reachable Hr) as [H1 H2 H3 H4 H5 H6 H7].
  destruct s as [[[rf ws mx kr ir] e0 n] cpc q o wpc].
  unfold handshake_order in Ho. simpl in Hc, Ho, H1, H3. subst cpc.
  simpl in Ho, H1, H3. subst wpc.
  destruct H3 as [-> | [_ Hx]]; [|discriminate].
  clear H2 H4 H5 H6 H7 Hr. subst mx.
  change [L_caller; L_worker; L_worker; L_worker; L_caller; L_caller;
          L_worker; L_worker; L_worker; L_worker]
    with ([L_caller; L_worker; L_worker; L_worker; L_caller; L_caller;
           L_worker; L_worker; L_worker] ++ [L_worker]).
  rewrite exec_app.
  assert (E : exec fn sp
                [L_caller; L_worker; L_worker; L_worker; L_caller; L_caller;
                 L_worker; L_worker; L_worker]
                {| world := {| timer := {| _running_fn := rf;
                                           _async_run_started := [];
                                           _mutex := Some Caller;
                                           _keep_running := kr;
                                           _is_running := ir |};
                               env := e0; calls := n |};
                   caller := A_wait; prog := q; obs := o; worker := W_lock |}
              = Some {| world := {| timer := {| _running_fn := rf;
                                                _async_run_started := [];
                                                _mutex := None;
                                                _keep_running := true;
                                                _is_running := true |};
                                    env := e0; calls := n |};
                        caller := C_idle; prog := q; obs := o;
                        worker := W_run R_call |})
    by reflexivity.
  rewrite E. cbn [exec step worker_step worker]. unfold run_step, invoke.
  cbn [world env timer calls].
  destruct (fn e0) as [e1 [[|]|]]; (eexists; split; [reflexivity|]);
    repeat split.
Qed.

(** The statement above for a second [run_async] on a runner whose first
    loop was stopped: the flag is down when the thread is launched. *)
Lemma launched_loop_runs_despite_stale_stop_witness :
  let s := state_after countdown false
             [L_caller; L_caller; L_caller; L_worker; L_worker; L_worker;
              L_caller; L_caller; L_worker; L_worker; L_caller;
              L_worker; L_worker; L_worker; L_caller; L_caller]
             (init 3%Z [RunAsync; Stop; RunAsync]) in
  reachable countdown false 3%Z [RunAsync; Stop; RunAsync] s
  /\ caller s = A_wait
  /\ _keep_running (timer (world s)) = false
  /\ exists s',
       exec countdown false
         [L_caller; L_worker; L_worker; L_worker; L_caller; L_caller;
          L_worker; L_worker; L_worker; L_worker]
         s = Some s'
       /\ calls (world s') = 1
       /\ env (world s') = 2%Z.
Proof.
  cbv zeta.
  assert (Hr : reachable countdown false 3%Z [RunAsync; Stop; RunAsync]
                 (state_after countdown false
                    [L_caller; L_caller; L_caller; L_worker; L_worker; L_worker;
                     L_caller; L_caller; L_worker; L_worker; L_caller;
                     L_worker; L_worker; L_worker; L_caller; L_caller]
                    (init 3%Z [RunAsync; Stop; RunAsync]))).
  { exists [L_caller; L_caller; L_caller; L_worker; L_worker; L_worker;
            L_caller; L_caller; L_worker; L_worker; L_caller;
            L_worker; L_worker; L_worker; L_caller; L_caller].
    vm_compute. reflexivity. }
  split; [exact Hr|]. split; [vm_compute; reflexivity|].
  split; [vm_compute; reflexivity|].
  destruct (@launched_loop_runs_despite_stale_stop Z countdown false 3%Z
              [RunAsync; Stop; RunAsync] _ Hr
              ltac:(vm_compute; reflexivity))
    as (s' & He & _ & _ & Hcalls & Henv).
  exists s'. split; [exact He|]. split; [exact Hcalls|].
  rewrite Henv. vm_compute. reflexivity.
Defined.
